(** * py_experimenter: field schema, combination engine and MySQL claim step

    A shallow embedding of [py_experimenter/utils.py] and of the claim
    step of [py_experimenter/database_connector_mysql.py].

    - Python [str] is [string]; the one-character [split], [rstrip] and
      [replace] calls of [get_fields] are written out on it.
    - A Python function call either returns a value or raises: [result].
    - A Python [dict] with string keys is a [gmap string _]; equality of
      maps is Python's [==] on dicts (insertion order is not observed).
    - The values of the keyfield domains end up in one numpy array, which
      has one element type: [to_common_dtype] is the conversion numpy
      applies to them, written out for Python ints and strs.
    - The database primitives of the claim step are calls on a backend
      whose outcomes are given; the calls made are logged in a trace. *)

From Stdlib Require Import Ascii String DecimalString.
From stdpp Require Import gmap strings list fin_maps.

(** ** Exceptions and outcomes *)

Inductive pce_message : Type :=
  | NoCombinationFound         (* 'No parameter combination found!' *)
  | KeyUsedMoreThanOnce        (* 'There is at least one key that is used more than once!' *)
  | KeyUsedMoreThanOnceIn (keys : list string)
  | KeyfieldMismatch.          (* 'The number of config_parameters + ... does not match ...' *)

Inductive exn : Type :=
  | ParameterCombinationError (msg : pce_message)
  | ConfigurationError (msg : string)
  | TypeError (msg : string)
  | DatabaseConnectionError (cause : string)
  | UnboundLocalError (var : string)
  | PyException (cls msg : string)   (* any other subclass of Exception *)
  | KeyboardInterrupt.               (* a BaseException that is no Exception *)

(** [isinstance(e, Exception)], what [except Exception] catches. *)
Definition is_Exception (e : exn) : bool :=
  match e with
  | KeyboardInterrupt => false
  | _ => true
  end.

Inductive result (A : Type) : Type :=
  | Ret (a : A)
  | Raise (e : exn).
Arguments Ret {A} a.
Arguments Raise {A} e.

#[global] Instance result_ret : MRet result := fun A a => Ret a.

#[global] Instance result_bind : MBind result := fun A B k r =>
  match r with
  | Ret a => k a
  | Raise e => Raise e
  end.

(** A [for] loop whose body may raise and that appends to a list. *)
Fixpoint for_each {A B} (f : A -> result B) (l : list A) : result (list B) :=
  match l with
  | [] => Ret []
  | a :: l' => b ← f a; bs ← for_each f l'; Ret (b :: bs)
  end.

(** ** Strings *)

Module PyStr.

(** [s.split(sep)] for a separator of one character. *)
Fixpoint split (sep : ascii) (s : string) : list string :=
  match s with
  | EmptyString => [EmptyString]
  | String c r =>
      if Ascii.eqb c sep then EmptyString :: split sep r
      else match split sep r with
           | h :: t => String c h :: t
           | [] => [String c EmptyString]
           end
  end.

(** [s.rstrip(ch)] for a set of one character. *)
Fixpoint rstrip (ch : ascii) (s : string) : string :=
  match s with
  | EmptyString => EmptyString
  | String c r =>
      match rstrip ch r with
      | EmptyString => if Ascii.eqb c ch then EmptyString else String c EmptyString
      | r' => String c r'
      end
  end.

(** [s.replace(ch, '')]. *)
Fixpoint remove (ch : ascii) (s : string) : string :=
  match s with
  | EmptyString => EmptyString
  | String c r => if Ascii.eqb c ch then remove ch r else String c (remove ch r)
  end.

(** [ch in s]. *)
Fixpoint contains (ch : ascii) (s : string) : bool :=
  match s with
  | EmptyString => false
  | String c r => Ascii.eqb c ch || contains ch r
  end.

(** [s.count(ch)]. *)
Fixpoint count (ch : ascii) (s : string) : nat :=
  match s with
  | EmptyString => 0
  | String c r => (if Ascii.eqb c ch then 1 else 0) + count ch r
  end.

(** [sep.join(l)]. *)
Fixpoint join (sep : ascii) (l : list string) : string :=
  match l with
  | [] => EmptyString
  | [s] => s
  | s :: l' => s +:+ String sep (join sep l')
  end.

End PyStr.

(** ** Field schema model ([utils.py], lines 34-39 and 102-115) *)

Definition field : Type := string * string.

Definition VARCHAR255 : string := "VARCHAR(255)".

(** [tuple(field.split(':')) if len(field.split(':')) == 2 else (field, 'VARCHAR(255)')] *)
Definition typed_field (token : string) : field :=
  match PyStr.split ":" token with
  | [name; ty] => (name, ty)
  | _ => (token, VARCHAR255)
  end.

Definition get_fields (fields : string) : result (list field) :=
  match fields with
  | EmptyString => Ret []
  | _ =>
      let fields := PyStr.rstrip "," fields in
      let fields := PyStr.split "," fields in
      let clean_fields := map (PyStr.remove " ") fields in
      let typed_fields := map typed_field clean_fields in
      Ret typed_fields
  end.

Definition add_timestep_result_columns (result_field_configuration : list field)
  : list field :=
  foldl (fun result_fields_with_timestamp result_field =>
           result_fields_with_timestamp
             ++ [result_field]
             ++ [(result_field.1 +:+ "_timestamp", VARCHAR255)])
        [] result_field_configuration.

(** ** Combination engine ([utils.py], lines 118-166) *)

(** [np.array] gives the grids it stacks one common element type.
    [to_common_dtype arrays v] is the element [v] of one of the [arrays]
    as the stacked array holds it. *)
Class CommonDtype (V : Type) : Type :=
  to_common_dtype : list (list V) -> V -> V.

(** Python values of two types: an int (of the int64 range) and a str. *)
Inductive pyvalue : Type :=
  | PyInt (z : Z)
  | PyStr (s : string).

#[global] Instance pyvalue_eq_dec : EqDecision pyvalue.
Proof. solve_decision. Defined.

Definition is_str (v : pyvalue) : bool :=
  match v with
  | PyStr _ => true
  | PyInt _ => false
  end.

(** [str(z)] *)
Definition str_of_int (z : Z) : string := NilZero.string_of_int (Z.to_int z).

(** The value as an element of a unicode array. *)
Definition as_str (v : pyvalue) : pyvalue :=
  match v with
  | PyInt z => PyStr (str_of_int z)
  | PyStr s => PyStr s
  end.

(** Ints alone make an int64 array and stay as they are; one str among
    the values makes a unicode array, in which every int is its decimal
    string. *)
#[global] Instance pyvalue_dtype : CommonDtype pyvalue := fun arrays v =>
  if existsb (existsb is_str) arrays then as_str v else v.

(** Domains of ints of the int64 range alone ([Z]) make an int64 array,
    domains of strs alone ([string]) a unicode array: both hold the values
    as they are. *)
#[global] Instance int_dtype : CommonDtype Z := fun _ z => z.

#[global] Instance str_dtype : CommonDtype string := fun _ s => s.

Module NumPy.
Section Meshgrid.
Context {V : Type} `{!CommonDtype V}.

(** The index tuples of the trailing axes: the first of them runs
    fastest, the last one slowest. *)
Fixpoint trailing (arrays : list (list V)) : list (list V) :=
  match arrays with
  | [] => [[]]
  | x :: more => t ← trailing more; c ← x; [c :: t]
  end.

(** The order of the rows of [np.array(grids).T.reshape(-1, len(arrays))].
    With the default [indexing='xy'] the grids of [np.meshgrid] have shape
    (d2, d1, d3, ..., dk); stacking and transposing gives shape
    (dk, ..., d3, d1, d2, k), read in row-major order: the second array
    runs fastest, then the first, then the third, ..., the last one
    slowest. *)
Definition grid_rows (arrays : list (list V)) : list (list V) :=
  match arrays with
  | [] => []
  | [x1] => v ← x1; [[v]]
  | x1 :: x2 :: rest => t ← trailing rest; b ← x1; a ← x2; [b :: a :: t]
  end.

(** The rows of [np.array(np.meshgrid( *arrays )).T.reshape(-1, len(arrays))]
    for one-dimensional [arrays]: [np.array] converts the elements of all
    the arrays to their common element type. *)
Definition meshgrid_rows (arrays : list (list V)) : list (list V) :=
  grid_rows (map (map (to_common_dtype arrays)) arrays).

End Meshgrid.
End NumPy.

Section CombinationEngine.
Context {V : Type} `{!CommonDtype V}.

(** [dict(zip(keys, values))]: later pairs overwrite earlier ones. *)
Definition dict_zip (keys : list string) (values : list V) : gmap string V :=
  foldl (fun d kv => <[kv.1 := kv.2]> d) ∅ (zip keys values).

(** [dict( **a, **b )]: a keyword given twice is a [TypeError]. *)
Definition dict_kwargs (a b : gmap string V) : result (gmap string V) :=
  if decide (dom a ∩ dom b = ∅) then Ret (a ∪ b)
  else Raise (TypeError "dict() got multiple values for keyword argument").

(** The loop of [create_combination_from_parameters]: the domains found
    and the keyfields they belong to, in the order of [keyfield_names]. *)
Fixpoint collect_keyfield_data (keyfield_names : list string)
    (parameters : gmap string (list V)) : list (list V) * list string :=
  match keyfield_names with
  | [] => ([], [])
  | keyfield_name :: rest =>
      let '(keyfield_data, used_keys) := collect_keyfield_data rest parameters in
      match parameters !! keyfield_name with
      | Some domain => (domain :: keyfield_data, keyfield_name :: used_keys)
      | None => (keyfield_data, used_keys)
      end
  end.

Definition create_combination_from_parameters (keyfield_names : list string)
    (parameters : gmap string (list V)) : list (gmap string V) :=
  let '(keyfield_data, used_keys) := collect_keyfield_data keyfield_names parameters in
  match keyfield_data with
  | [] => []
  | _ => map (dict_zip used_keys) (NumPy.meshgrid_rows keyfield_data)
  end.

(** [try: dict( **comination, **fixed ) except TypeError: raise ParameterCombinationError] *)
Definition merge_combination (comination fixed_parameter_combination : gmap string V)
  : result (gmap string V) :=
  match dict_kwargs comination fixed_parameter_combination with
  | Raise (TypeError _) => Raise (ParameterCombinationError KeyUsedMoreThanOnce)
  | r => r
  end.

Definition add_individual_parameters_to_combinations
    (combinations fixed_parameter_combinations : list (gmap string V))
  : result (list (gmap string V)) :=
  match combinations with
  | [] => Ret fixed_parameter_combinations
  | _ =>
      new_combinations ←
        for_each (fun comination =>
                    for_each (merge_combination comination)
                             fixed_parameter_combinations)
                 combinations;
      Ret (concat new_combinations)
  end.

(** The combinations before the post-condition checks (lines 150-153). *)
Definition merged_combinations (keyfield_names : list string)
    (parameters : gmap string (list V))
    (fixed_parameter_combinations : list (gmap string V))
  : result (list (gmap string V)) :=
  let combinations := create_combination_from_parameters keyfield_names parameters in
  match fixed_parameter_combinations with
  | [] => Ret combinations
  | _ => add_individual_parameters_to_combinations combinations
           fixed_parameter_combinations
  end.

(** [combination.keys()] and the body of the checking loop (lines 159-164). *)
Definition keys (combination : gmap string V) : list string :=
  (map_to_list combination).*1.

Definition check_combination (keyfield_names : list string)
    (combination : gmap string V) : result unit :=
  if negb (bool_decide (length (keys combination)
                        = size (list_to_set (keys combination) : gset string)))
  then Raise (ParameterCombinationError (KeyUsedMoreThanOnceIn (keys combination)))
  else if bool_decide ((list_to_set (keys combination) : gset string)
                       ≠ list_to_set keyfield_names)
  then Raise (ParameterCombinationError KeyfieldMismatch)
  else Ret ().

(** The post-condition checks (lines 155-166). *)
Definition validate_combinations (keyfield_names : list string)
    (combinations : list (gmap string V)) : result (list (gmap string V)) :=
  match combinations with
  | [] => Raise (ParameterCombinationError NoCombinationFound)
  | _ =>
      _ ← for_each (check_combination keyfield_names) combinations;
      Ret combinations
  end.

Definition combine_fill_table_parameters (keyfield_names : list string)
    (parameters : gmap string (list V))
    (fixed_parameter_combinations : list (gmap string V))
  : result (list (gmap string V)) :=
  combinations ← merged_combinations keyfield_names parameters
                   fixed_parameter_combinations;
  validate_combinations keyfield_names combinations.

(** The sizes d1..dk of the declared keyfields' domains and their product. *)
Definition domain_sizes (keyfield_names : list string)
    (parameters : gmap string (list V)) : list nat :=
  map (fun k => length (default [] (parameters !! k))) keyfield_names.

Definition product (sizes : list nat) : nat := foldr Nat.mul 1 sizes.

End CombinationEngine.

(** ** The MySQL connector ([database_connector_mysql.py]) *)

Module MySQL.

Definition handle : Type := nat.
Definition cursor_id : Type := nat.

(** [experiment_id, description, values] *)
Definition experiment : Type := Z * list string * list string.

(** The calls that reach the database driver or the base class. *)
Inductive call : Type :=
  | Connect
  | Cursor (connection : handle)
  | Begin (connection : handle)
  | SelectOpenExperiments (connection : handle) (cursor : cursor_id) (random_order : bool)
  | Rollback (connection : handle)
  | CloseConnection (connection : handle).

(** What each of these calls answers.  [cursor], [close_connection] and
    [_select_open_experiments_from_db] are methods of the base class
    [DatabaseConnector], which is not among the sources. *)
Record backend : Type := {
  connect : result handle;
  cursor : handle -> result cursor_id;
  begin : handle -> result unit;
  _select_open_experiments_from_db : handle -> cursor_id -> bool -> result experiment;
  rollback : handle -> result unit;
  close_connection : handle -> result unit
}.

(** The local variables of [_pull_open_experiment]; [None] is unbound. *)
Record frame : Type := {
  connection : option handle;
  cursor_var : option cursor_id;
  selected : option experiment
}.

Definition unbound : frame :=
  {| connection := None; cursor_var := None; selected := None |}.

Record state : Type := { trace : list call; locals : frame }.

Definition M (A : Type) : Type := state -> state * result A.

Definition ret {A} (a : A) : M A := fun s => (s, Ret a).

Definition raise {A} (e : exn) : M A := fun s => (s, Raise e).

Definition then_ {A B} (m : M A) (k : A -> M B) : M B := fun s =>
  match m s with
  | (s', Ret a) => k a s'
  | (s', Raise e) => (s', Raise e)
  end.

Notation "x <~ m ;; k" := (then_ m (fun x => k))
  (at level 100, m at next level, right associativity, only parsing).
Notation "m ;;; k" := (then_ m (fun _ => k))
  (at level 100, right associativity, only parsing).

(** A call is logged, then answers. *)
Definition invoke {A} (c : call) (answer : result A) : M A := fun s =>
  ({| trace := trace s ++ [c]; locals := locals s |}, answer).

Definition assign (f : frame -> frame) : M unit := fun s =>
  ({| trace := trace s; locals := f (locals s) |}, Ret ()).

(** Reading a local variable; an unbound one raises [UnboundLocalError]. *)
Definition read {A} (name : string) (var : frame -> option A) : M A := fun s =>
  match var (locals s) with
  | Some a => (s, Ret a)
  | None => (s, Raise (UnboundLocalError name))
  end.

(** [try: body  except Exception as err: handler err  finally: final].
    The handler runs when the body raised an [Exception]; [final] runs on
    every path, and an exception it raises replaces the pending outcome. *)
Definition try_except_finally {A} (body : M A) (handler : exn -> M A)
    (final : M unit) : M A := fun s =>
  let '(s1, r1) := body s in
  let '(s2, r2) :=
    match r1 with
    | Raise err => if is_Exception err then handler err s1 else (s1, r1)
    | Ret _ => (s1, r1)
    end in
  let '(s3, r3) := final s2 in
  match r3 with
  | Raise e => (s3, Raise e)
  | Ret _ => (s3, r2)
  end.

Definition _start_transaction (self : backend) (connection : handle)
    (readonly : bool) : M unit :=
  if negb readonly then invoke (Begin connection) (begin self connection)
  else ret ().

Definition _pull_open_experiment (self : backend) (random_order : bool)
  : M experiment :=
  (try_except_finally
     (c <~ invoke Connect (connect self) ;;
      assign (fun l => {| connection := Some c; cursor_var := cursor_var l;
                          selected := selected l |}) ;;;
      c <~ read "connection" connection ;;
      cur <~ invoke (Cursor c) (cursor self c) ;;
      assign (fun l => {| connection := connection l; cursor_var := Some cur;
                          selected := selected l |}) ;;;
      c <~ read "connection" connection ;;
      _start_transaction self c false ;;;
      c <~ read "connection" connection ;;
      cur <~ read "cursor" cursor_var ;;
      e <~ invoke (SelectOpenExperiments c cur random_order)
             (_select_open_experiments_from_db self c cur random_order) ;;
      assign (fun l => {| connection := connection l; cursor_var := cursor_var l;
                          selected := Some e |}))
     (fun err =>
        c <~ read "connection" connection ;;
        invoke (Rollback c) (rollback self c) ;;;
        raise err)
     (c <~ read "connection" connection ;;
      invoke (CloseConnection c) (close_connection self c))) ;;;
  read "experiment_id" selected.

(** One execution of the claim step, from a fresh frame. *)
Definition run_pull_open_experiment (self : backend) (random_order : bool)
  : list call * result experiment :=
  let '(s, r) := _pull_open_experiment self random_order
                   {| trace := []; locals := unbound |} in
  (trace s, r).

Definition _prepared_statement_placeholder : string := "%s".

Definition get_autoincrement : string := "AUTO_INCREMENT".

Definition random_order_string : string := "RAND()".

Section PullQuery.
(** [DatabaseConnector._get_pull_experiment_query], the base pull query. *)
Variable super_get_pull_experiment_query : string -> string.

Definition _get_pull_experiment_query (order_by : string) : string :=
  super_get_pull_experiment_query order_by +:+ " FOR UPDATE;".
End PullQuery.

End MySQL.

(** ** The merge of product rows and fixed rows, as the spec words it *)

(** For every product row and every fixed row, their union. *)
Definition all_unions {V : Type} (combinations fixed : list (gmap string V))
  : list (gmap string V) :=
  c ← combinations; f ← fixed; [c ∪ f].

(** ** Field tokens, as the configuration writes them *)

(** The tokens [get_fields] works on: the comma-separated pieces of the
    input, spaces removed (the list [clean_fields] of the source). *)
Definition clean_fields (fields : string) : list string :=
  match fields with
  | EmptyString => []
  | _ => map (PyStr.remove " ") (PyStr.split "," (PyStr.rstrip "," fields))
  end.

(** A token [name] or [name:TYPE]. *)
Record token : Type := { token_name : string; token_type : option string }.

Definition render (t : token) : string :=
  match token_type t with
  | None => token_name t
  | Some ty => token_name t +:+ String ":" ty
  end.

(** No list separator and no type separator. *)
Definition separator_free (s : string) : Prop :=
  PyStr.contains "," s = false /\ PyStr.contains ":" s = false.

Definition well_formed (t : token) : Prop :=
  token_name t ≠ EmptyString /\ separator_free (token_name t)
  /\ forall ty, token_type t = Some ty -> separator_free ty.

(** Neither the name nor the type holds a space. *)
Definition space_free (t : token) : Prop :=
  PyStr.contains " " (token_name t) = false
  /\ forall ty, token_type t = Some ty -> PyStr.contains " " ty = false.

(** The pair [get_fields] gives for a token: name and type with their
    spaces removed. *)
Definition parsed (t : token) : field :=
  (PyStr.remove " " (token_name t),
   default VARCHAR255 (PyStr.remove " " <$> token_type t)).

(** A backend whose server cannot be reached: [connect] raises, as
    [DatabaseConnectorMYSQL.connect] does on a [pymysql.Error]. *)
Definition unreachable_server : MySQL.backend :=
  {| MySQL.connect := Raise (DatabaseConnectionError "(2003) cannot connect to server");
     MySQL.cursor := fun _ => Ret 0;
     MySQL.begin := fun _ => Ret ();
     MySQL._select_open_experiments_from_db := fun _ _ _ => Ret (1%Z, [], []);
     MySQL.rollback := fun _ => Ret ();
     MySQL.close_connection := fun _ => Ret () |}.

(** A backend on which the select of the open experiments fails. *)
Definition failing_select : MySQL.backend :=
  {| MySQL.connect := Ret 7;
     MySQL.cursor := fun _ => Ret 0;
     MySQL.begin := fun _ => Ret ();
     MySQL._select_open_experiments_from_db :=
       fun _ _ _ => Raise (PyException "OperationalError" "lock wait timeout");
     MySQL.rollback := fun _ => Ret ();
     MySQL.close_connection := fun _ => Ret () |}.

(** ** Reading the configuration ([utils.py], lines 42-99) *)

(** [section[option]] of a [configparser] section: the value, or what the
    lookup raises (a [KeyError] when the option is missing). *)
Definition section : Type := string -> result string.

(** [config[name]]: the section, or what the lookup raises. *)
Definition config : Type := string -> result section.

(** [isinstance(e, KeyError)], what [except KeyError] catches. *)
Definition is_KeyError (e : exn) : bool :=
  match e with
  | PyException cls _ => bool_decide (cls = "KeyError")
  | _ => false
  end.

Definition get_keyfields (config : config) : result (list field) :=
  experimenter ← config "PY_EXPERIMENTER";
  keyfields ← experimenter "keyfields";
  get_fields keyfields.

Definition get_keyfield_names (config : config) : result (list string) :=
  keyfield_names ← get_keyfields config;
  Ret (map fst keyfield_names).

(** The loop of [get_keyfield_data]: a keyfield without value definition is
    logged and left out; any other failure of the lookup is raised. *)
Fixpoint keyfield_data_loop (experiment_config : section)
    (keyfield_names : list string) (keyfield_data : gmap string (list string))
  : result (gmap string (list string)) :=
  match keyfield_names with
  | [] => Ret keyfield_data
  | keyfield_name :: rest =>
      match experiment_config keyfield_name with
      | Ret value =>
          let data := PyStr.split "," value in
          let clean_data := map (PyStr.remove " ") data in
          keyfield_data_loop experiment_config rest
            (<[keyfield_name := clean_data]> keyfield_data)
      | Raise err =>
          if is_KeyError err
          then keyfield_data_loop experiment_config rest keyfield_data
          else Raise err
      end
  end.

Definition get_keyfield_data (config : config)
  : result (gmap string (list string)) :=
  keyfield_names ← get_keyfield_names config;
  experiment_config ← config "PY_EXPERIMENTER";
  keyfield_data_loop experiment_config keyfield_names ∅.

(** [table_name, host, user, database, password] *)
Definition extract_db_credentials_and_table_name_from_config (config : config)
  : result (string * option string * option string * string * option string) :=
  database_config ← config "DATABASE";
  provider ← database_config "provider";
  '(host, user, password) ←
    (if bool_decide (provider = "sqlite") then Ret (None, None, None)
     else host ← database_config "host";
          user ← database_config "user";
          password ← database_config "password";
          Ret (Some host, Some user, Some password));
  database ← database_config "database";
  table ← database_config "table";
  let table_name := PyStr.remove " " table in
  Ret (table_name, host, user, database, password).

(** ** Database and table queries ([database_connector_mysql.py]) *)

Module Server.

Definition handle : Type := nat.
Definition cursor_id : Type := nat.

(** The calls that reach the driver or the base class. *)
Inductive call : Type :=
  | Connect
  | Cursor (connection : handle)
  | Execute (cursor : cursor_id) (sql : string)
  | Fetchall (cursor : cursor_id)
  | Commit (connection : handle)
  | CloseConnection (connection : handle).

(** What each call answers; [V] is the type of the fetched values.
    [cursor], [execute], [fetchall], [commit] and [close_connection] are
    methods of the base class [DatabaseConnector], which is not among the
    sources.  No function below makes the same call twice. *)
Record backend (V : Type) : Type := {
  connect : result handle;
  cursor : handle -> result cursor_id;
  execute : cursor_id -> string -> result unit;
  fetchall : cursor_id -> result (list (list V));
  commit : handle -> result unit;
  close_connection : handle -> result unit
}.
Arguments connect {V} _.
Arguments cursor {V} _ _.
Arguments execute {V} _ _ _.
Arguments fetchall {V} _ _.
Arguments commit {V} _ _.
Arguments close_connection {V} _ _.

(** A computation logs its calls and returns or raises. *)
Definition M (A : Type) : Type := list call -> list call * result A.

Definition ret {A} (a : A) : M A := fun t => (t, Ret a).

Definition raise {A} (e : exn) : M A := fun t => (t, Raise e).

Definition then_ {A B} (m : M A) (k : A -> M B) : M B := fun t =>
  match m t with
  | (t', Ret a) => k a t'
  | (t', Raise e) => (t', Raise e)
  end.

Notation "x <~ m ;; k" := (then_ m (fun x => k))
  (at level 100, m at next level, right associativity, only parsing).
Notation "m ;;; k" := (then_ m (fun _ => k))
  (at level 100, right associativity, only parsing).

Definition invoke {A} (c : call) (answer : result A) : M A := fun t =>
  (t ++ [c], answer).

Definition lift {A} (r : result A) : M A := fun t => (t, r).

(** [try: body  except Exception as err: handler err] *)
Definition try_except {A} (body : M A) (handler : exn -> M A) : M A := fun t =>
  match body t with
  | (t', Raise err) => if is_Exception err then handler err t' else (t', Raise err)
  | r => r
  end.

(** [row[0]] on a fetched tuple. *)
Definition first_column {V} (row : list V) : result V :=
  match row with
  | v :: _ => Ret v
  | [] => Raise (PyException "IndexError" "tuple index out of range")
  end.

Definition newline : string := String (ascii_of_nat 10) EmptyString.

Section Connector.
Context {V : Type}.
Variable self : backend V.

(** [dict(zip(column_names, existing_row))] for every fetched row. *)
Definition _get_existing_rows (table_name : string) (column_names : list string)
  : M (list (gmap string V)) :=
  connection <~ invoke Connect (connect self) ;;
  cursor <~ invoke (Cursor connection) (cursor self connection) ;;
  let sql := "SELECT " +:+ PyStr.join "," column_names +:+ " FROM " +:+ table_name in
  invoke (Execute cursor sql) (execute self cursor sql) ;;;
  values <~ invoke (Fetchall cursor) (fetchall self cursor) ;;
  invoke (CloseConnection connection) (close_connection self connection) ;;;
  ret (map (dict_zip column_names) values).

End Connector.

Section CreateDatabase.
(** [str(err)], as the f-string renders the exception. *)
Variable str : exn -> string.
Variable self : backend string.

Definition _create_database_if_not_existing (database_name : string) : M unit :=
  try_except
    (connection <~ invoke Connect (connect self) ;;
     cursor <~ invoke (Cursor connection) (cursor self connection) ;;
     invoke (Execute cursor "SHOW DATABASES") (execute self cursor "SHOW DATABASES") ;;;
     rows <~ invoke (Fetchall cursor) (fetchall self cursor) ;;
     databases <~ lift (for_each first_column rows) ;;
     (if bool_decide (database_name ∉ databases)
      then
        let sql := "CREATE DATABASE " +:+ database_name in
        invoke (Execute cursor sql) (execute self cursor sql) ;;;
        invoke (Commit connection) (commit self connection)
      else ret ()) ;;;
     invoke (CloseConnection connection) (close_connection self connection))
    (fun err =>
       raise (PyException "DatabaseCreationError"
                ("Error when creating database: " +:+ newline +:+ " " +:+ str err))).

End CreateDatabase.

(** One execution, from an empty log. *)
Definition run {A} (m : M A) : list call * result A := m [].

End Server.

(** ** Reading the log of the claim step *)

Definition is_close (c : MySQL.call) : bool :=
  match c with
  | MySQL.CloseConnection _ => true
  | _ => false
  end.

Definition is_rollback (c : MySQL.call) : bool :=
  match c with
  | MySQL.Rollback _ => true
  | _ => false
  end.

(** The call in the try block of [_pull_open_experiment] that fails, after
    [connect] has returned [c]: the cursor, the begin or the select. *)
Definition transacted_work_fails (self : MySQL.backend) (random_order : bool)
    (c : MySQL.handle) (err : exn) : Prop :=
  MySQL.cursor self c = Raise err
  \/ exists cur,
       MySQL.cursor self c = Ret cur
       /\ (MySQL.begin self c = Raise err
           \/ (MySQL.begin self c = Ret ()
               /\ MySQL._select_open_experiments_from_db self c cur random_order
                  = Raise err)).

Definition is_server_close (c : Server.call) : bool :=
  match c with
  | Server.CloseConnection _ => true
  | _ => false
  end.

(** A server on which the statement fails. *)
Definition failing_statement : Server.backend Z :=
  {| Server.connect := Ret 3;
     Server.cursor := fun _ => Ret 0;
     Server.execute := fun _ _ => Raise (PyException "ProgrammingError" "no such table");
     Server.fetchall := fun _ => Ret [];
     Server.commit := fun _ => Ret ();
     Server.close_connection := fun _ => Ret () |}.

(** A server that holds two rows of the experiment table. *)
Definition two_rows : Server.backend Z :=
  {| Server.connect := Ret 3;
     Server.cursor := fun _ => Ret 0;
     Server.execute := fun _ _ => Ret ();
     Server.fetchall := fun _ => Ret [[1%Z; 1%Z]; [1%Z; 3%Z]];
     Server.commit := fun _ => Ret ();
     Server.close_connection := fun _ => Ret () |}.

(** A server with the databases [mysql] and [experiments]. *)
Definition two_databases : Server.backend string :=
  {| Server.connect := Ret 3;
     Server.cursor := fun _ => Ret 0;
     Server.execute := fun _ _ => Ret ();
     Server.fetchall := fun _ => Ret [["mysql"]; ["experiments"]];
     Server.commit := fun _ => Ret ();
     Server.close_connection := fun _ => Ret () |}.

(** A backend on which every call succeeds. *)
Definition working_backend : MySQL.backend :=
  {| MySQL.connect := Ret 7;
     MySQL.cursor := fun _ => Ret 0;
     MySQL.begin := fun _ => Ret ();
     MySQL._select_open_experiments_from_db := fun _ _ _ => Ret (1%Z, [], []);
     MySQL.rollback := fun _ => Ret ();
     MySQL.close_connection := fun _ => Ret () |}.

(** A backend whose rollback fails after a failed select. *)
Definition failing_rollback : MySQL.backend :=
  {| MySQL.connect := Ret 7;
     MySQL.cursor := fun _ => Ret 0;
     MySQL.begin := fun _ => Ret ();
     MySQL._select_open_experiments_from_db :=
       fun _ _ _ => Raise (PyException "OperationalError" "lock wait timeout");
     MySQL.rollback := fun _ => Raise (PyException "InterfaceError" "connection lost");
     MySQL.close_connection := fun _ => Ret () |}.

(** A backend on which the select is interrupted from the keyboard. *)
Definition interrupted_select : MySQL.backend :=
  {| MySQL.connect := Ret 7;
     MySQL.cursor := fun _ => Ret 0;
     MySQL.begin := fun _ => Ret ();
     MySQL._select_open_experiments_from_db := fun _ _ _ => Raise KeyboardInterrupt;
     MySQL.rollback := fun _ => Ret ();
     MySQL.close_connection := fun _ => Ret () |}.

(** A backend on which everything works but the close. *)
Definition failing_close : MySQL.backend :=
  {| MySQL.connect := Ret 7;
     MySQL.cursor := fun _ => Ret 0;
     MySQL.begin := fun _ => Ret ();
     MySQL._select_open_experiments_from_db := fun _ _ _ => Ret (1%Z, [], []);
     MySQL.rollback := fun _ => Ret ();
     MySQL.close_connection :=
       fun _ => Raise (DatabaseConnectionError "close failed") |}.

(** ** A configuration, as the examples write it *)

Definition example_experimenter : section := fun option =>
  if bool_decide (option = "keyfields") then Ret "value:int, exponent:int, seed"
  else if bool_decide (option = "resultfields") then Ret "sin, cos"
  else if bool_decide (option = "value") then Ret "1, 2"
  else if bool_decide (option = "exponent") then Ret "1,2,3"
  else Raise (PyException "KeyError" option).

Definition example_database : section := fun option =>
  if bool_decide (option = "provider") then Ret "sqlite"
  else if bool_decide (option = "database") then Ret "py_experimenter"
  else if bool_decide (option = "table") then Ret "example table"
  else Raise (PyException "KeyError" option).

Definition example_config : config := fun name =>
  if bool_decide (name = "PY_EXPERIMENTER") then Ret example_experimenter
  else if bool_decide (name = "DATABASE") then Ret example_database
  else Raise (PyException "KeyError" name).

(** The same experiment with two keyfields only. *)
Definition example_config_two : config := fun name =>
  if bool_decide (name = "PY_EXPERIMENTER")
  then Ret (fun option =>
              if bool_decide (option = "keyfields") then Ret "value:int, exponent:int"
              else example_experimenter option)
  else example_config name.

(** A section whose lookup of [seed] fails with an interpolation error. *)
Definition broken_experimenter : section := fun option =>
  if bool_decide (option = "seed")
  then Raise (PyException "InterpolationSyntaxError" "'%' must be followed by '%' or '('")
  else example_experimenter option.

Definition broken_config : config := fun name =>
  if bool_decide (name = "PY_EXPERIMENTER") then Ret broken_experimenter
  else example_config name.

(** Case analysis on membership in a list that is written out. *)
Ltac elem_cases H :=
  repeat (apply elem_of_cons in H; destruct H as [-> | H]);
  try (by apply elem_of_nil in H).

Example get_fields_example :
  get_fields "dataset, cross_validation_splits:int, seed:int"
  = Ret [("dataset", "VARCHAR(255)"); ("cross_validation_splits", "int"); ("seed", "int")].
Proof. reflexivity. Qed.

Example get_fields_trailing_comma :
  get_fields "value:int,exponent:int,," = Ret [("value", "int"); ("exponent", "int")].
Proof. reflexivity. Qed.

Example add_timestep_example :
  add_timestep_result_columns [("sin", "DECIMAL"); ("cos", "DECIMAL")]
  = [("sin", "DECIMAL"); ("sin_timestamp", "VARCHAR(255)");
     ("cos", "DECIMAL"); ("cos_timestamp", "VARCHAR(255)")].
Proof. reflexivity. Qed.

Example meshgrid_two :
  NumPy.grid_rows [[1; 2]; [3; 4; 5]]
  = [[1; 3]; [1; 4]; [1; 5]; [2; 3]; [2; 4]; [2; 5]].
Proof. reflexivity. Qed.

Example meshgrid_mixed :
  NumPy.meshgrid_rows [[PyInt 1; PyInt 2]; [PyStr "x"]]
  = [[PyStr "1"; PyStr "x"]; [PyStr "2"; PyStr "x"]].
Proof. reflexivity. Qed.

Example str_of_int_decimal :
  str_of_int 0 = "0" /\ str_of_int 120 = "120" /\ str_of_int (-7) = "-7".
Proof. by vm_compute. Qed.

Example meshgrid_ints :
  NumPy.meshgrid_rows [[PyInt 1; PyInt (-2)]; [PyInt 3]]
  = [[PyInt 1; PyInt 3]; [PyInt (-2); PyInt 3]].
Proof. reflexivity. Qed.

Example get_fields_type_with_comma :
  get_fields "x:DECIMAL(10,2)"
  = Ret [("x", "DECIMAL(10"); ("2)", "VARCHAR(255)")].
Proof. reflexivity. Qed.

Example meshgrid_three :
  NumPy.grid_rows [[1; 2]; [3; 4]; [5; 6]]
  = [[1; 3; 5]; [1; 4; 5]; [2; 3; 5]; [2; 4; 5];
     [1; 3; 6]; [1; 4; 6]; [2; 3; 6]; [2; 4; 6]].
Proof. reflexivity. Qed.

Example combine_example :
  combine_fill_table_parameters ["value"; "exponent"]
    (<["value" := [1%Z]]> (<["exponent" := [1%Z; 3%Z]]> ∅)) []
  = Ret [ <["value" := 1%Z]> (<["exponent" := 1%Z]> ∅);
          <["value" := 1%Z]> (<["exponent" := 3%Z]> ∅) ].
Proof. by vm_compute. Qed.

(** ** Properties of the string operations *)

Module PyStrFacts.
Import PyStr.

Lemma append_nil_l s : EmptyString +:+ s = s.
Proof. reflexivity. Qed.

Lemma append_cons c s t : String c s +:+ t = String c (s +:+ t).
Proof. reflexivity. Qed.

Lemma contains_cons ch c s :
  contains ch (String c s) = Ascii.eqb c ch || contains ch s.
Proof. reflexivity. Qed.

Lemma contains_app ch s t : contains ch (s +:+ t) = contains ch s || contains ch t.
Proof.
  induction s as [|c s IH]; [by rewrite append_nil_l|].
  rewrite append_cons. simpl. by rewrite IH, orb_assoc.
Qed.

Lemma contains_count ch s : contains ch s = false <-> count ch s = 0.
Proof.
  induction s as [|c s IH]; simpl; [done|].
  destruct (Ascii.eqb c ch); simpl; [split; [done|lia] | done].
Qed.

Lemma split_not_nil sep s : split sep s ≠ [].
Proof.
  destruct s as [|c s]; simpl; [done|].
  destruct (Ascii.eqb c sep); [done|].
  by destruct (split sep s).
Qed.

Lemma split_free sep s : contains sep s = false -> split sep s = [s].
Proof.
  induction s as [|c s IH]; simpl; [done|].
  destruct (Ascii.eqb c sep); simpl; [done|].
  intros H. by rewrite (IH H).
Qed.

Lemma split_app_sep sep s t :
  contains sep s = false -> split sep (s +:+ String sep t) = s :: split sep t.
Proof.
  induction s as [|c s IH].
  - intros _. rewrite append_nil_l. simpl. by rewrite Ascii.eqb_refl.
  - rewrite append_cons. simpl.
    destruct (Ascii.eqb c sep); simpl; [done|].
    intros H. by rewrite (IH H).
Qed.

Lemma split_length sep s : length (split sep s) = S (count sep s).
Proof.
  induction s as [|c s IH]; simpl; [done|].
  destruct (Ascii.eqb c sep); simpl; [by rewrite IH|].
  destruct (split sep s); simpl in *; [done | by rewrite <- IH].
Qed.

Lemma rstrip_free ch s : contains ch s = false -> rstrip ch s = s.
Proof.
  induction s as [|c s IH]; simpl; [done|].
  destruct (Ascii.eqb c ch); simpl; [done|].
  intros H. rewrite (IH H). by destruct s.
Qed.

Lemma rstrip_app_fixed ch p s :
  s ≠ EmptyString -> rstrip ch s = s -> rstrip ch (p +:+ s) = p +:+ s.
Proof.
  intros Hne Hs. induction p as [|c p IH]; [by rewrite append_nil_l|].
  rewrite append_cons. simpl. rewrite IH.
  destruct (p +:+ s) eqn:E; [|done].
  destruct p; [by rewrite append_nil_l in E | by rewrite append_cons in E].
Qed.

Lemma remove_free ch s : contains ch s = false -> remove ch s = s.
Proof.
  induction s as [|c s IH]; simpl; [done|].
  destruct (Ascii.eqb c ch); simpl; [done|].
  intros H. by rewrite (IH H).
Qed.

Lemma remove_keeps_free ch c s :
  contains c s = false -> contains c (remove ch s) = false.
Proof.
  induction s as [|c0 s IH]; [done|].
  rewrite contains_cons. intros H. apply orb_false_iff in H as [Hc Hs]. simpl.
  destruct (Ascii.eqb c0 ch); [by apply IH|].
  rewrite contains_cons, Hc. by apply IH.
Qed.

Lemma remove_app ch s t : remove ch (s +:+ t) = remove ch s +:+ remove ch t.
Proof.
  induction s as [|c s IH]; [by rewrite !append_nil_l|].
  rewrite append_cons. simpl. destruct (Ascii.eqb c ch); [done|].
  by rewrite append_cons, IH.
Qed.

Lemma remove_other ch c s :
  c ≠ ch -> remove ch (String c s) = String c (remove ch s).
Proof. intros H. simpl. apply Ascii.eqb_neq in H. by rewrite H. Qed.

Lemma join_cons sep s l :
  l ≠ [] -> join sep (s :: l) = s +:+ String sep (join sep l).
Proof. by destruct l. Qed.

Lemma join_not_empty sep l :
  l ≠ [] -> Forall (fun s => s ≠ EmptyString) l -> join sep l ≠ EmptyString.
Proof.
  destruct l as [|s l]; [done|]. intros _ H.
  apply Forall_cons in H as [Hs _].
  destruct l; simpl; [done|]. destruct s; [done|]. by rewrite append_cons.
Qed.

Lemma split_join sep l :
  l ≠ [] -> Forall (fun s => contains sep s = false) l ->
  split sep (join sep l) = l.
Proof.
  induction l as [|s l IH]; [done|]. intros _ H.
  apply Forall_cons in H as [Hs Hl].
  destruct l as [|s' l]; [by apply split_free|].
  rewrite join_cons by done. rewrite split_app_sep by done.
  by rewrite IH.
Qed.

Lemma rstrip_join ch l :
  Forall (fun s => s ≠ EmptyString /\ contains ch s = false) l ->
  rstrip ch (join ch l) = join ch l.
Proof.
  induction l as [|s l IH]; [done|]. intros H.
  apply Forall_cons in H as [[Hne Hs] Hl].
  destruct l as [|s' l]; [by apply rstrip_free|].
  rewrite join_cons by done.
  change (s +:+ String ch (join ch (s' :: l)))
    with (s +:+ (String ch EmptyString +:+ join ch (s' :: l))).
  assert (Hj : join ch (s' :: l) ≠ EmptyString).
  { apply join_not_empty; [done|]. eapply Forall_impl; [exact Hl|]. by intros ? []. }
  assert (Hc : rstrip ch (String ch EmptyString +:+ join ch (s' :: l))
               = String ch EmptyString +:+ join ch (s' :: l)).
  { apply rstrip_app_fixed; [done|]. by apply IH. }
  apply rstrip_app_fixed; [|done].
  by rewrite append_cons.
Qed.

End PyStrFacts.

(** ** Field schema model *)

Section FieldSchema.
Import PyStr PyStrFacts.

Lemma get_fields_clean_fields fields :
  get_fields fields = Ret (map typed_field (clean_fields fields)).
Proof. by destruct fields. Qed.

Lemma typed_field_many_colons tok :
  1 < count ":" tok -> typed_field tok = (tok, VARCHAR255).
Proof.
  intros H. unfold typed_field.
  pose proof (split_length ":" tok) as Hl.
  destruct (split ":" tok) as [|a [|b [|c l]]]; simpl in Hl; try done; lia.
Qed.

Lemma typed_field_bare name :
  contains ":" name = false -> typed_field name = (name, VARCHAR255).
Proof. intros H. unfold typed_field. by rewrite split_free. Qed.

Lemma typed_field_typed name ty :
  contains ":" name = false -> contains ":" ty = false ->
  typed_field (name +:+ String ":" ty) = (name, ty).
Proof.
  intros Hn Ht. unfold typed_field.
  by rewrite split_app_sep, (split_free _ ty).
Qed.

Lemma render_no_comma t : well_formed t -> contains "," (render t) = false.
Proof.
  intros (_ & (Hn & _) & Hty). unfold render.
  destruct (token_type t) as [ty|]; [|done].
  destruct (Hty ty eq_refl) as (Ht & _).
  by rewrite contains_app, Hn, contains_cons, Ht.
Qed.

Lemma render_not_empty t : well_formed t -> render t ≠ EmptyString.
Proof.
  intros (Hne & _). unfold render.
  destruct (token_type t); [|done].
  destruct (token_name t); [done | by rewrite append_cons].
Qed.

(** What [get_fields] makes of a token once its spaces are removed. *)
Lemma typed_field_render t :
  well_formed t -> typed_field (remove " " (render t)) = parsed t.
Proof.
  intros (_ & (_ & Hn) & Hty). unfold render, parsed.
  destruct (token_type t) as [ty|]; simpl.
  - destruct (Hty ty eq_refl) as (_ & Ht).
    rewrite remove_app, remove_other by done.
    apply typed_field_typed; by apply remove_keeps_free.
  - apply typed_field_bare. by apply remove_keeps_free.
Qed.

Lemma parsed_space_free t :
  space_free t -> parsed t = (token_name t, default VARCHAR255 (token_type t)).
Proof.
  intros (Hn & Hty). unfold parsed. rewrite (remove_free _ _ Hn).
  destruct (token_type t) as [ty|]; simpl; [|done].
  by rewrite (remove_free _ _ (Hty ty eq_refl)).
Qed.

End FieldSchema.

(** C6 as stated fails: a token with two ':' separators is parsed, and
    no [ConfigurationError] is raised. *)
Lemma get_fields_two_colons_no_error :
  ~ (forall fields tok,
        tok ∈ clean_fields fields -> 1 < PyStr.count ":" tok ->
        exists msg, get_fields fields = Raise (ConfigurationError msg)).
Proof.
  intros H.
  destruct (H "a:b:c" "a:b:c") as [msg Hmsg].
  - vm_compute. apply list_elem_of_here.
  - vm_compute. lia.
  - discriminate Hmsg.
Qed.

(** C6, amended: field-specification parsing never fails.  For every input
    [get_fields] returns the list of its tokens' pairs, and a token with
    more than one ':' separator is kept whole, spaces removed, as a field
    name of type VARCHAR(255). *)
Theorem get_fields_never_fails (fields : string) :
  exists typed_fields,
    get_fields fields = Ret typed_fields
    /\ length typed_fields = length (clean_fields fields)
    /\ forall i tok, clean_fields fields !! i = Some tok ->
         1 < PyStr.count ":" tok ->
         typed_fields !! i = Some (tok, "VARCHAR(255)").
Proof.
  exists (map typed_field (clean_fields fields)).
  split; [apply get_fields_clean_fields|].
  split; [by rewrite length_map|].
  intros i tok Hi Hc.
  rewrite list_lookup_fmap, Hi. simpl.
  by rewrite typed_field_many_colons.
Qed.

Lemma get_fields_never_fails_witness :
  exists typed_fields,
    get_fields "a:b:c,d" = Ret typed_fields
    /\ typed_fields !! 0 = Some ("a:b:c", "VARCHAR(255)").
Proof.
  destruct (get_fields_never_fails "a:b:c,d") as (l & Hl & _ & H).
  exists l. split; [exact Hl|].
  apply H; [reflexivity | vm_compute; lia].
Defined.

(** C7 as stated fails: the type of a well-formed token is not taken
    verbatim when it holds a space. *)
Lemma get_fields_type_with_space :
  well_formed {| token_name := "x"; token_type := Some "INT UNSIGNED" |}
  /\ get_fields (render {| token_name := "x"; token_type := Some "INT UNSIGNED" |})
     = Ret [("x", "INTUNSIGNED")]
  /\ get_fields (render {| token_name := "x"; token_type := Some "INT UNSIGNED" |})
     ≠ Ret [("x", "INT UNSIGNED")].
Proof.
  split; [|split].
  - split; [discriminate|]. split; [by split|].
    intros ty Hty. simpl in Hty. injection Hty as <-. by split.
  - reflexivity.
  - discriminate.
Qed.

(** C7, amended: for every non-empty list of well-formed tokens (name
    not empty; name and type without ',' and ':'), written
    comma-separated, [get_fields] returns their pairs in order, with all
    spaces removed from name and type: a bare [name] gives
    (name, VARCHAR(255)), a [name:TYPE] gives (name, TYPE).  Name and
    type are taken verbatim when they hold no space. *)
Theorem get_fields_well_formed (tokens : list token) :
  tokens ≠ [] ->
  Forall well_formed tokens ->
  get_fields (PyStr.join "," (map render tokens)) = Ret (map parsed tokens)
  /\ forall t, t ∈ tokens -> space_free t ->
       parsed t = (token_name t, default VARCHAR255 (token_type t)).
Proof.
  intros Hne Hwf. split; [|intros t _; apply parsed_space_free].
  assert (Hmap : map render tokens ≠ []) by (by destruct tokens).
  assert (Hcomma : Forall (fun s => PyStr.contains "," s = false) (map render tokens)).
  { apply Forall_fmap. eapply Forall_impl; [exact Hwf|].
    intros t Ht. simpl. by apply render_no_comma. }
  assert (Hnonempty : Forall (fun s => s ≠ EmptyString) (map render tokens)).
  { apply Forall_fmap. eapply Forall_impl; [exact Hwf|].
    intros t Ht. by apply render_not_empty. }
  rewrite get_fields_clean_fields. f_equal.
  unfold clean_fields.
  pose proof (PyStrFacts.join_not_empty "," _ Hmap Hnonempty) as Hj.
  destruct (PyStr.join "," (map render tokens)) eqn:E; [done|]. rewrite <- E.
  rewrite PyStrFacts.rstrip_join, PyStrFacts.split_join; [|done|done|].
  - rewrite <- !list_fmap_compose. apply Forall_fmap_ext_1.
    eapply Forall_impl; [exact Hwf|]. intros t Ht. simpl.
    by apply typed_field_render.
  - clear -Hcomma Hnonempty. induction Hcomma; [constructor|].
    apply Forall_cons in Hnonempty as [? ?]. constructor; auto.
Qed.

Lemma get_fields_well_formed_witness :
  get_fields "value:INT UNSIGNED, name,seed:int"
  = Ret [("value", "INTUNSIGNED"); ("name", "VARCHAR(255)"); ("seed", "int")]
  /\ parsed {| token_name := "seed"; token_type := Some "int" |} = ("seed", "int").
Proof.
  destruct (get_fields_well_formed
              [ {| token_name := "value"; token_type := Some "INT UNSIGNED" |};
                {| token_name := " name"; token_type := None |};
                {| token_name := "seed"; token_type := Some "int" |} ])
    as [Hfields Hverbatim].
  - discriminate.
  - repeat apply Forall_cons_2; try apply Forall_nil_2;
      (split; [discriminate|]; split; [by split|]);
      intros ty Hty; simpl in Hty; inversion Hty; by split.
  - split; [exact Hfields|].
    apply Hverbatim.
    + do 2 apply list_elem_of_further. apply list_elem_of_here.
    + split; [reflexivity|]. intros ty Hty. simpl in Hty. by injection Hty as <-.
Defined.

(** ** Timestamp columns *)

Lemma add_timestep_foldl (acc l : list field) :
  foldl (fun result_fields_with_timestamp result_field =>
           result_fields_with_timestamp
             ++ [result_field]
             ++ [(result_field.1 +:+ "_timestamp", VARCHAR255)]) acc l
  = acc ++ (rf ← l; [rf; (rf.1 +:+ "_timestamp", VARCHAR255)]).
Proof.
  revert acc. induction l as [|rf l IH]; intros acc; simpl.
  - by rewrite app_nil_r.
  - rewrite IH. by rewrite <- app_assoc.
Qed.

Lemma add_timestep_cons (rf : field) (l : list field) :
  add_timestep_result_columns (rf :: l)
  = rf :: (rf.1 +:+ "_timestamp", VARCHAR255) :: add_timestep_result_columns l.
Proof.
  unfold add_timestep_result_columns. by rewrite !add_timestep_foldl.
Qed.

(** C8: the list returned by [add_timestep_result_columns] is twice as
    long as the list of result fields; the i-th result field stands at
    position 2i, and position 2i+1 holds its shadow column
    ("<field>_timestamp", VARCHAR(255)). *)
Theorem add_timestep_result_columns_spec (result_fields : list field) :
  length (add_timestep_result_columns result_fields) = 2 * length result_fields
  /\ forall i name ty,
       result_fields !! i = Some (name, ty) ->
       add_timestep_result_columns result_fields !! (2 * i) = Some (name, ty)
       /\ add_timestep_result_columns result_fields !! (2 * i + 1)
          = Some (name +:+ "_timestamp", "VARCHAR(255)").
Proof.
  induction result_fields as [|rf l [IHlen IHnth]]; [by split|].
  rewrite add_timestep_cons. split.
  - simpl. rewrite IHlen. lia.
  - intros [|i] name ty Hi.
    + simpl in Hi. injection Hi as ->. by split.
    + simpl in Hi. destruct (IHnth i name ty Hi) as [H1 H2].
      replace (2 * S i) with (S (S (2 * i))) by lia.
      replace (S (S (2 * i)) + 1) with (S (S (2 * i + 1))) by lia.
      by split.
Qed.

Lemma add_timestep_result_columns_witness :
  add_timestep_result_columns [("sin", "DECIMAL"); ("cos", "DECIMAL")] !! 2
  = Some ("cos", "DECIMAL")
  /\ add_timestep_result_columns [("sin", "DECIMAL"); ("cos", "DECIMAL")] !! 3
     = Some ("cos_timestamp", "VARCHAR(255)").
Proof.
  exact (proj2 (add_timestep_result_columns_spec
                  [("sin", "DECIMAL"); ("cos", "DECIMAL")]) 1 "cos" "DECIMAL" eq_refl).
Defined.

(** ** Loops that may raise *)

Section ForEach.
Context {A B : Type} (f : A -> result B).

Lemma for_each_cons a l :
  for_each f (a :: l) = b ← f a; bs ← for_each f l; Ret (b :: bs).
Proof. reflexivity. Qed.

Lemma for_each_ret_map (g : A -> B) l :
  (forall a, a ∈ l -> f a = Ret (g a)) -> for_each f l = Ret (map g l).
Proof.
  induction l as [|a l IH]; intros H; [done|].
  rewrite for_each_cons, (H a) by apply list_elem_of_here. simpl.
  rewrite IH; [done|]. intros a' Ha'. apply H. by apply list_elem_of_further.
Qed.

Lemma for_each_inv l bs :
  for_each f l = Ret bs -> Forall2 (fun a b => f a = Ret b) l bs.
Proof.
  revert bs. induction l as [|a l IH]; intros bs H.
  - injection H as <-. constructor.
  - rewrite for_each_cons in H.
    destruct (f a) as [b|e] eqn:Ea; simpl in H; [|done].
    destruct (for_each f l) as [bs'|e] eqn:El; simpl in H; [|done].
    injection H as <-. constructor; auto.
Qed.

Lemma for_each_exn l e :
  for_each f l = Raise e -> exists a, a ∈ l /\ f a = Raise e.
Proof.
  induction l as [|a l IH]; intros H; [done|].
  rewrite for_each_cons in H.
  destruct (f a) as [b|e'] eqn:Ea; simpl in H.
  - destruct (for_each f l) as [bs'|e'] eqn:El; simpl in H; [done|].
    injection H as ->. destruct IH as (a' & Ha' & Hf); [done|].
    exists a'. split; [by apply list_elem_of_further | done].
  - injection H as ->. exists a. split; [apply list_elem_of_here | done].
Qed.

Lemma for_each_total l :
  (exists bs, for_each f l = Ret bs) \/ (exists e, for_each f l = Raise e).
Proof. destruct (for_each f l); eauto. Qed.

(** When every failure of the body is the exception [e], a failing
    element makes the loop raise [e]. *)
Lemma for_each_raise (e : exn) l a :
  (forall a' e', f a' = Raise e' -> e' = e) ->
  a ∈ l -> f a = Raise e -> for_each f l = Raise e.
Proof.
  intros Hall Ha Hf.
  destruct (for_each f l) as [bs|e'] eqn:El.
  - apply for_each_inv in El.
    apply list_elem_of_lookup in Ha as [i Hi].
    destruct (Forall2_lookup_l _ _ _ _ _ El Hi) as (b & _ & Hb). congruence.
  - apply for_each_exn in El as (a' & _ & Ha'). f_equal. by eapply Hall.
Qed.

End ForEach.

(** ** The post-condition checks *)

Section Validation.
Context {V : Type}.
Implicit Types (combination : gmap string V) (keyfield_names : list string).

Lemma keys_dom combination :
  (list_to_set (keys combination) : gset string) = dom combination.
Proof. unfold keys. apply leibniz_equiv. by rewrite dom_alt. Qed.

(** A dict holds each key once: the first check of the loop never fires. *)
Lemma keys_no_duplicates combination :
  length (keys combination) = size (list_to_set (keys combination) : gset string).
Proof.
  rewrite keys_dom, size_dom. unfold keys.
  by rewrite length_fmap, length_map_to_list.
Qed.

Lemma check_combination_spec keyfield_names combination :
  check_combination keyfield_names combination
  = if decide (dom combination = list_to_set keyfield_names) then Ret ()
    else Raise (ParameterCombinationError KeyfieldMismatch).
Proof.
  unfold check_combination.
  rewrite bool_decide_eq_true_2 by apply keys_no_duplicates. simpl.
  rewrite keys_dom.
  destruct (decide (dom combination = list_to_set keyfield_names)) as [E|E].
  - by rewrite bool_decide_eq_false_2 by (intros H; by apply H).
  - by rewrite bool_decide_eq_true_2.
Qed.

Lemma validate_combinations_ok keyfield_names (combinations : list (gmap string V)) :
  combinations ≠ [] ->
  Forall (fun c => dom c = list_to_set keyfield_names) combinations ->
  validate_combinations keyfield_names combinations = Ret combinations.
Proof.
  intros Hne Hall. unfold validate_combinations.
  destruct combinations as [|c l]; [done|].
  rewrite (for_each_ret_map _ (fun _ => ())); [done|].
  intros a Ha. rewrite check_combination_spec.
  rewrite Forall_forall in Hall. by rewrite decide_True by auto.
Qed.

Lemma validate_combinations_inv keyfield_names (combinations out : list (gmap string V)) :
  validate_combinations keyfield_names combinations = Ret out ->
  out = combinations /\ combinations ≠ []
  /\ Forall (fun c => dom c = list_to_set keyfield_names) combinations.
Proof.
  unfold validate_combinations. destruct combinations as [|c l]; [done|].
  destruct (for_each _ (c :: l)) as [us|e] eqn:E; simpl; [|done].
  intros H. injection H as <-. split; [done|]. split; [done|].
  apply for_each_inv in E. apply Forall_forall. intros c' Hc'.
  apply list_elem_of_lookup in Hc' as [i Hi].
  destruct (Forall2_lookup_l _ _ _ _ _ E Hi) as (u & _ & Hu).
  rewrite check_combination_spec in Hu. by destruct (decide _).
Qed.

Lemma validate_combinations_exn keyfield_names (combinations : list (gmap string V)) e :
  validate_combinations keyfield_names combinations = Raise e ->
  e = ParameterCombinationError NoCombinationFound
  \/ e = ParameterCombinationError KeyfieldMismatch.
Proof.
  unfold validate_combinations. destruct combinations as [|c l].
  - intros H. injection H as <-. by left.
  - destruct (for_each _ (c :: l)) as [us|e'] eqn:E; simpl; [done|].
    intros H. injection H as ->.
    apply for_each_exn in E as (c' & _ & Hc').
    rewrite check_combination_spec in Hc'. destruct (decide _); [done|].
    injection Hc' as <-. by right.
Qed.

Lemma validate_combinations_raise keyfield_names (combinations : list (gmap string V)) :
  combinations = []
  \/ Exists (fun c => dom c ≠ list_to_set keyfield_names) combinations ->
  exists msg,
    validate_combinations keyfield_names combinations
    = Raise (ParameterCombinationError msg).
Proof.
  intros H.
  destruct (validate_combinations keyfield_names combinations) as [out|e] eqn:E.
  - apply validate_combinations_inv in E as (_ & Hne & Hall).
    destruct H as [H|H]; [done|].
    apply Exists_exists in H as (c & Hc & Hdom).
    rewrite Forall_forall in Hall. by destruct (Hdom (Hall c Hc)).
  - apply validate_combinations_exn in E as [-> | ->]; eauto.
Qed.

End Validation.

(** ** The merge with fixed parameter combinations *)

Section Merge.
Context {V : Type}.
Implicit Types (a b c f : gmap string V) (combinations fixed : list (gmap string V)).

Lemma merge_combination_spec a b :
  merge_combination a b
  = if decide (dom a ∩ dom b = ∅) then Ret (a ∪ b)
    else Raise (ParameterCombinationError KeyUsedMoreThanOnce).
Proof.
  unfold merge_combination, dict_kwargs. by destruct (decide (dom a ∩ dom b = ∅)).
Qed.

Lemma merge_combination_exn a b e :
  merge_combination a b = Raise e ->
  e = ParameterCombinationError KeyUsedMoreThanOnce.
Proof.
  rewrite merge_combination_spec. destruct (decide _); [done|]. by intros [= <-].
Qed.

Lemma merge_row_exn c fixed e :
  for_each (merge_combination c) fixed = Raise e ->
  e = ParameterCombinationError KeyUsedMoreThanOnce.
Proof.
  intros H. apply for_each_exn in H as (f & _ & Hf).
  by eapply merge_combination_exn.
Qed.

Lemma concat_map_bind {A B} (g : A -> list B) (l : list A) :
  concat (map g l) = l ≫= g.
Proof.
  induction l as [|a l IH]; [done|]. rewrite bind_cons, <- IH. done.
Qed.

Lemma map_bind_singleton {A B} (g : A -> B) (l : list A) :
  map g l = (x ← l; [g x]).
Proof.
  induction l as [|a l IH]; [done|]. rewrite bind_cons, <- IH. done.
Qed.

Lemma add_individual_disjoint combinations fixed :
  combinations ≠ [] ->
  (forall c f, c ∈ combinations -> f ∈ fixed -> dom c ∩ dom f = ∅) ->
  add_individual_parameters_to_combinations combinations fixed
  = Ret (all_unions combinations fixed).
Proof.
  intros Hne Hdisj. unfold add_individual_parameters_to_combinations.
  destruct combinations as [|c0 l]; [done|].
  rewrite (for_each_ret_map _ (fun c => map (fun f => c ∪ f) fixed)).
  - transitivity (Ret (A := list (gmap string V))
                    (concat (map (fun c => map (fun f => c ∪ f) fixed) (c0 :: l))));
      [reflexivity|].
    f_equal. rewrite concat_map_bind. unfold all_unions.
    apply list_bind_ext; [|done].
    intros c. apply map_bind_singleton.
  - intros c Hc. apply for_each_ret_map. intros f Hf.
    rewrite merge_combination_spec.
    destruct (decide (dom c ∩ dom f = ∅)) as [|Hn]; [done|].
    exfalso. apply Hn. exact (Hdisj c f Hc Hf).
Qed.

Lemma add_individual_collision combinations fixed c f :
  c ∈ combinations -> f ∈ fixed -> dom c ∩ dom f ≠ ∅ ->
  add_individual_parameters_to_combinations combinations fixed
  = Raise (ParameterCombinationError KeyUsedMoreThanOnce).
Proof.
  intros Hc Hf Hcol. unfold add_individual_parameters_to_combinations.
  destruct combinations as [|c0 l]; [by apply elem_of_nil in Hc|].
  rewrite (for_each_raise _ (ParameterCombinationError KeyUsedMoreThanOnce) _ c);
    [done | | done |].
  - intros c' e'. apply merge_row_exn.
  - apply (for_each_raise _ _ _ f); [|done|].
    + intros f' e'. apply merge_combination_exn.
    + rewrite merge_combination_spec.
      by destruct (decide (dom c ∩ dom f = ∅)).
Qed.

Lemma add_individual_exn combinations fixed e :
  add_individual_parameters_to_combinations combinations fixed = Raise e ->
  e = ParameterCombinationError KeyUsedMoreThanOnce.
Proof.
  unfold add_individual_parameters_to_combinations.
  destruct combinations as [|c0 l]; [done|].
  destruct (for_each _ (c0 :: l)) as [rows|e'] eqn:E; simpl; [done|].
  intros [= <-]. apply for_each_exn in E as (c & _ & Hc).
  by eapply merge_row_exn.
Qed.

Lemma length_bind_const {A B} (g : A -> list B) (l : list A) n :
  (forall x, x ∈ l -> length (g x) = n) -> length (l ≫= g) = length l * n.
Proof.
  induction l as [|a l IH]; intros H; [done|].
  rewrite bind_cons, length_app, (H a) by apply list_elem_of_here.
  rewrite IH; [done|]. intros x Hx. apply H. by apply list_elem_of_further.
Qed.

Lemma all_unions_length combinations fixed :
  length (all_unions combinations fixed) = length combinations * length fixed.
Proof.
  unfold all_unions. apply length_bind_const. intros c _.
  rewrite (length_bind_const _ _ 1); [lia | done].
Qed.

Lemma elem_of_all_unions combinations fixed row :
  row ∈ all_unions combinations fixed
  <-> exists c f, c ∈ combinations /\ f ∈ fixed /\ row = c ∪ f.
Proof.
  unfold all_unions. rewrite list_elem_of_bind. split.
  - intros (c & Hrow & Hc). apply list_elem_of_bind in Hrow as (f & Hrow & Hf).
    apply list_elem_of_singleton in Hrow. eauto.
  - intros (c & f & Hc & Hf & ->). exists c. split; [|done].
    apply list_elem_of_bind. exists f. split; [|done].
    by apply list_elem_of_singleton.
Qed.

End Merge.

(** ** The cartesian product *)

Section Product.
Context {V : Type}.
Implicit Types (arrays : list (list V)) (row : list V).

Lemma trailing_length arrays :
  length (NumPy.trailing arrays) = product (map length arrays).
Proof.
  induction arrays as [|x more IH]; [done|].
  change (NumPy.trailing (x :: more))
    with (t ← NumPy.trailing more; c ← x; [c :: t]).
  rewrite (length_bind_const _ _ (length x)).
  - rewrite IH. simpl. unfold product. lia.
  - intros t _. rewrite (length_bind_const _ _ 1); [lia | done].
Qed.

Lemma grid_rows_length arrays :
  arrays ≠ [] ->
  length (NumPy.grid_rows arrays) = product (map length arrays).
Proof.
  destruct arrays as [|x1 [|x2 rest]]; [done| |]; intros _.
  - unfold NumPy.grid_rows.
    rewrite (length_bind_const _ _ 1); [simpl; lia | done].
  - unfold NumPy.grid_rows.
    rewrite (length_bind_const _ _ (length x1 * length x2)).
    + rewrite trailing_length. simpl. unfold product. lia.
    + intros t _. apply length_bind_const. intros b _.
      rewrite (length_bind_const _ _ 1); [lia | done].
Qed.

Lemma trailing_elem arrays row :
  row ∈ NumPy.trailing arrays -> Forall2 (fun v d => v ∈ d) row arrays.
Proof.
  revert row. induction arrays as [|x more IH]; intros row H.
  - apply list_elem_of_singleton in H as ->. constructor.
  - change (NumPy.trailing (x :: more))
      with (t ← NumPy.trailing more; c ← x; [c :: t]) in H.
    apply list_elem_of_bind in H as (t & H & Ht).
    apply list_elem_of_bind in H as (c & H & Hc).
    apply list_elem_of_singleton in H as ->. constructor; auto.
Qed.

(** Every row of the grid picks, position by position, one element of
    the array at that position. *)
Lemma grid_rows_elem arrays row :
  row ∈ NumPy.grid_rows arrays -> Forall2 (fun v d => v ∈ d) row arrays.
Proof.
  destruct arrays as [|x1 [|x2 rest]]; unfold NumPy.grid_rows; intros H.
  - by apply elem_of_nil in H.
  - apply list_elem_of_bind in H as (v & H & Hv).
    apply list_elem_of_singleton in H as ->.
    apply Forall2_cons; split; [done | apply Forall2_nil_2].
  - apply list_elem_of_bind in H as (t & H & Ht).
    apply list_elem_of_bind in H as (b & H & Hb).
    apply list_elem_of_bind in H as (a & H & Ha).
    apply list_elem_of_singleton in H as ->.
    apply Forall2_cons; split; [done|].
    apply Forall2_cons; split; [done|]. by apply trailing_elem.
Qed.

(** [dict(zip(keys, values))] from any starting dict: the keys are
    added, and every entry satisfies what the zipped pairs satisfy. *)
Lemma foldl_insert_dom (keys : list string) (values : list V) (d : gmap string V) :
  length keys = length values ->
  dom (foldl (fun d kv => <[kv.1 := kv.2]> d) d (zip keys values))
  = dom d ∪ list_to_set keys.
Proof.
  revert values d. induction keys as [|k keys IH]; intros [|v values] d Hlen;
    simpl in Hlen; [| lia | lia |].
  - simpl. by rewrite (right_id_L ∅ (∪)).
  - simpl. rewrite IH by lia. rewrite dom_insert_L.
    rewrite (comm_L (∪) {[k]} (dom d)). by rewrite (assoc_L (∪)).
Qed.

Lemma foldl_insert_lookup (R : string -> V -> Prop)
    (keys : list string) (values : list V) (d : gmap string V) :
  Forall2 R keys values ->
  (forall k v, d !! k = Some v -> R k v) ->
  forall k v,
    foldl (fun d kv => <[kv.1 := kv.2]> d) d (zip keys values) !! k = Some v ->
    R k v.
Proof.
  intros H. revert d. induction H as [|k0 v0 keys values Hkv H IH]; intros d Hd k v.
  - simpl. apply Hd.
  - simpl. apply IH. intros k' v'.
    destruct (decide (k0 = k')) as [<-|Hne].
    + rewrite lookup_insert_eq. by intros [= <-].
    + rewrite lookup_insert_ne by done. apply Hd.
Qed.

Lemma dict_zip_dom (keys : list string) (values : list V) :
  length keys = length values -> dom (dict_zip keys values) = list_to_set keys.
Proof.
  intros H. unfold dict_zip. rewrite foldl_insert_dom by done.
  rewrite dom_empty_L. by rewrite (left_id_L ∅ (∪)).
Qed.

Lemma dict_zip_lookup (R : string -> V -> Prop) (keys : list string)
    (values : list V) k v :
  Forall2 R keys values -> dict_zip keys values !! k = Some v -> R k v.
Proof.
  intros H. apply (foldl_insert_lookup R keys values ∅ H).
  intros k' v'. by rewrite lookup_empty.
Qed.

End Product.

(** ** The conversion to the common element type *)

Section Conversion.
Context {V : Type} `{!CommonDtype V}.
Implicit Types (arrays : list (list V)) (row : list V).

Lemma meshgrid_rows_length arrays :
  arrays ≠ [] ->
  length (NumPy.meshgrid_rows arrays) = product (map length arrays).
Proof.
  intros Hne. unfold NumPy.meshgrid_rows.
  rewrite grid_rows_length by (by destruct arrays). f_equal.
  rewrite <- list_fmap_compose. apply Forall_fmap_ext_1, Forall_forall.
  intros d _. simpl. apply length_map.
Qed.

(** Every row of the grid holds, position by position, the converted
    form of one element of the array at that position. *)
Lemma meshgrid_rows_elem arrays row :
  row ∈ NumPy.meshgrid_rows arrays ->
  Forall2 (fun v d => exists v0, v0 ∈ d /\ v = to_common_dtype arrays v0) row arrays.
Proof.
  unfold NumPy.meshgrid_rows. intros H. apply grid_rows_elem in H.
  revert H. generalize (to_common_dtype arrays). intros f H.
  revert row H. induction arrays as [|d arrays IH]; intros row H.
  - inversion H. constructor.
  - inversion H as [|v ? row' ? Hv Hrest]; subst.
    constructor; [|by apply IH].
    apply list_elem_of_fmap in Hv as (v0 & -> & Hv0). by exists v0.
Qed.

Lemma meshgrid_rows_empty_array arrays :
  [] ∈ arrays -> NumPy.meshgrid_rows arrays = [].
Proof.
  intros H. apply nil_length_inv.
  rewrite meshgrid_rows_length by (intros ->; by apply elem_of_nil in H).
  clear -H. induction arrays as [|d arrays IH]; [by apply elem_of_nil in H|].
  apply elem_of_cons in H as [<- | H]; unfold product in *; simpl; [done|].
  rewrite IH by done. lia.
Qed.

End Conversion.

(** ** The keyfields that take part in the product *)

Section Collect.
Context {V : Type} `{!CommonDtype V}.
Implicit Types (parameters : gmap string (list V)) (keyfield_names : list string).

Lemma collect_keyfield_data_cons keyfield_name rest parameters :
  collect_keyfield_data (keyfield_name :: rest) parameters
  = match parameters !! keyfield_name with
    | Some domain =>
        (domain :: (collect_keyfield_data rest parameters).1,
         keyfield_name :: (collect_keyfield_data rest parameters).2)
    | None => collect_keyfield_data rest parameters
    end.
Proof.
  simpl. destruct (collect_keyfield_data rest parameters) as [data used].
  by destruct (parameters !! keyfield_name).
Qed.

Lemma collect_data keyfield_names parameters :
  (collect_keyfield_data keyfield_names parameters).1
  = omap (fun k => parameters !! k) keyfield_names.
Proof.
  induction keyfield_names as [|k rest IH]; [done|].
  rewrite collect_keyfield_data_cons. simpl.
  destruct (parameters !! k); simpl; by rewrite IH.
Qed.

Lemma collect_used keyfield_names parameters :
  (collect_keyfield_data keyfield_names parameters).2
  = filter (fun k => is_Some (parameters !! k)) keyfield_names.
Proof.
  induction keyfield_names as [|k rest IH]; [done|].
  rewrite collect_keyfield_data_cons.
  destruct (parameters !! k) as [d|] eqn:E; simpl.
  - rewrite filter_cons_True by (by rewrite E). by rewrite IH.
  - rewrite filter_cons_False by (rewrite E; by intros [? ?]). apply IH.
Qed.

Lemma collect_Forall2 keyfield_names parameters :
  Forall2 (fun k d => parameters !! k = Some d)
          (collect_keyfield_data keyfield_names parameters).2
          (collect_keyfield_data keyfield_names parameters).1.
Proof.
  induction keyfield_names as [|k rest IH]; [constructor|].
  rewrite collect_keyfield_data_cons.
  destruct (parameters !! k) as [d|] eqn:E; simpl; [by constructor | done].
Qed.

(** When every declared keyfield has a domain, all of them are used. *)
Lemma collect_all keyfield_names parameters :
  (forall k, k ∈ keyfield_names -> is_Some (parameters !! k)) ->
  (collect_keyfield_data keyfield_names parameters).2 = keyfield_names
  /\ map length (collect_keyfield_data keyfield_names parameters).1
     = domain_sizes keyfield_names parameters.
Proof.
  induction keyfield_names as [|k rest IH]; intros H; [done|].
  rewrite collect_keyfield_data_cons.
  destruct (H k) as [d Hd]; [apply list_elem_of_here|]. rewrite Hd. simpl.
  destruct IH as [IH1 IH2].
  { intros k' Hk'. apply H. by apply list_elem_of_further. }
  rewrite IH1, IH2. unfold domain_sizes. simpl. by rewrite Hd.
Qed.

Lemma create_combination_unfold keyfield_names parameters :
  create_combination_from_parameters keyfield_names parameters
  = match (collect_keyfield_data keyfield_names parameters).1 with
    | [] => []
    | _ => map (dict_zip (collect_keyfield_data keyfield_names parameters).2)
             (NumPy.meshgrid_rows (collect_keyfield_data keyfield_names parameters).1)
    end.
Proof.
  unfold create_combination_from_parameters.
  by destruct (collect_keyfield_data keyfield_names parameters).
Qed.

(** Every product row has the used keyfields as its keys and gives
    each of them the converted form of a value of its domain. *)
Lemma create_combination_row keyfield_names parameters row :
  row ∈ create_combination_from_parameters keyfield_names parameters ->
  dom row = list_to_set (collect_keyfield_data keyfield_names parameters).2
  /\ forall k v, row !! k = Some v ->
       exists d v0,
         parameters !! k = Some d /\ v0 ∈ d
         /\ v = to_common_dtype (collect_keyfield_data keyfield_names parameters).1 v0.
Proof.
  rewrite create_combination_unfold.
  pose proof (collect_Forall2 keyfield_names parameters) as HF.
  destruct (collect_keyfield_data keyfield_names parameters) as [data used].
  simpl in *. intros H.
  assert (Hrow : exists values,
             row = dict_zip used values
             /\ Forall2 (fun v d => exists v0, v0 ∈ d /\ v = to_common_dtype data v0)
                  values data).
  { destruct data as [|d0 data]; [by apply elem_of_nil in H|].
    apply list_elem_of_fmap in H as (values & -> & Hv).
    exists values. split; [done|]. by apply meshgrid_rows_elem. }
  destruct Hrow as (values & -> & Hvalues). split.
  - apply dict_zip_dom.
    apply Forall2_length in HF. apply Forall2_length in Hvalues. lia.
  - intros k v. revert Hvalues. generalize (to_common_dtype data). intros f Hvalues.
    apply (dict_zip_lookup
             (fun k v => exists d v0, parameters !! k = Some d /\ v0 ∈ d /\ v = f v0)).
    clear -HF Hvalues. revert values Hvalues.
    induction HF as [|k0 d0 used data Hk HF IH]; intros values Hvalues.
    + inversion Hvalues. constructor.
    + inversion Hvalues as [|v0 ? values' ? (v1 & Hv1 & ->) Hrest]; subst.
      constructor; eauto.
Qed.

Lemma create_combination_length keyfield_names parameters :
  (collect_keyfield_data keyfield_names parameters).1 ≠ [] ->
  length (create_combination_from_parameters keyfield_names parameters)
  = product (map length (collect_keyfield_data keyfield_names parameters).1).
Proof.
  rewrite create_combination_unfold. intros H.
  destruct (collect_keyfield_data keyfield_names parameters).1 as [|d0 data] eqn:E;
    [done|].
  rewrite length_map. by apply meshgrid_rows_length.
Qed.

End Collect.

(** ** The combination engine as a whole *)

Section Engine.
Context {V : Type} `{!CommonDtype V}.
Implicit Types (parameters : gmap string (list V)) (keyfield_names : list string)
  (fixed : list (gmap string V)).

Lemma product_pos (sizes : list nat) :
  Forall (fun n => 0 < n) sizes -> 0 < product sizes.
Proof.
  induction 1 as [|n sizes Hn _ IH]; unfold product in *; simpl; [lia|].
  apply Nat.mul_pos_pos; done.
Qed.

Lemma merged_no_fixed keyfield_names parameters :
  merged_combinations keyfield_names parameters []
  = Ret (create_combination_from_parameters keyfield_names parameters).
Proof. reflexivity. Qed.

Lemma merged_fixed keyfield_names parameters fixed :
  fixed ≠ [] ->
  merged_combinations keyfield_names parameters fixed
  = add_individual_parameters_to_combinations
      (create_combination_from_parameters keyfield_names parameters) fixed.
Proof. by destruct fixed. Qed.

Lemma combine_unfold keyfield_names parameters fixed candidates :
  merged_combinations keyfield_names parameters fixed = Ret candidates ->
  combine_fill_table_parameters keyfield_names parameters fixed
  = validate_combinations keyfield_names candidates.
Proof. unfold combine_fill_table_parameters. by intros ->. Qed.

Lemma merged_exn keyfield_names parameters fixed e :
  merged_combinations keyfield_names parameters fixed = Raise e ->
  e = ParameterCombinationError KeyUsedMoreThanOnce.
Proof.
  destruct fixed as [|f0 fixed]; [done|].
  rewrite merged_fixed by done. apply add_individual_exn.
Qed.

Lemma collect_no_domain keyfield_names parameters :
  (forall k, k ∈ keyfield_names -> parameters !! k = None) ->
  collect_keyfield_data keyfield_names parameters = ([], []).
Proof.
  induction keyfield_names as [|k rest IH]; intros H; [done|].
  rewrite collect_keyfield_data_cons, (H k) by apply list_elem_of_here.
  apply IH. intros k' Hk'. apply H. by apply list_elem_of_further.
Qed.



End Engine.




(** C2 as stated fails: with keyfields a, b, c, the domain a:[1] and
    the fixed row {b: 2}, the key sets are disjoint, yet the call does not
    return the one union; the post-condition check raises. *)
Lemma combine_disjoint_but_incomplete :
  create_combination_from_parameters ["a"; "b"; "c"] (<["a" := [1%Z]]> ∅)
  = [ <["a" := 1%Z]> ∅ ]
  /\ dom (<["a" := 1%Z]> (∅ : gmap string Z)) ∩ dom (<["b" := 2%Z]> (∅ : gmap string Z)) = ∅
  /\ combine_fill_table_parameters ["a"; "b"; "c"] (<["a" := [1%Z]]> ∅)
       [ <["b" := 2%Z]> ∅ ]
     = Raise (ParameterCombinationError KeyfieldMismatch).
Proof. by vm_compute. Qed.

(** C2, amended: given product rows and F fixed rows whose key sets are
    disjoint from those of the product rows, the candidate set is the union
    of every product row with every fixed row, (product size) x F of them,
    and [combine_fill_table_parameters] returns it provided every union has
    exactly the declared keyfields as keys (otherwise the post-condition
    check raises); whenever a key occurs both in a product row and in a
    fixed row, it raises ParameterCombinationError. *)
Theorem combine_with_fixed_rows {V : Type} `{!CommonDtype V}
    (keyfield_names : list string)
    (parameters : gmap string (list V)) (fixed : list (gmap string V)) :
  create_combination_from_parameters keyfield_names parameters ≠ [] ->
  fixed ≠ [] ->
  let product_rows := create_combination_from_parameters keyfield_names parameters in
  ((forall c f, c ∈ product_rows -> f ∈ fixed -> dom c ∩ dom f = ∅) ->
   merged_combinations keyfield_names parameters fixed
   = Ret (all_unions product_rows fixed)
   /\ length (all_unions product_rows fixed) = length product_rows * length fixed
   /\ combine_fill_table_parameters keyfield_names parameters fixed
      = validate_combinations keyfield_names (all_unions product_rows fixed)
   /\ ((forall c f, c ∈ product_rows -> f ∈ fixed ->
          dom (c ∪ f) = list_to_set keyfield_names) ->
       combine_fill_table_parameters keyfield_names parameters fixed
       = Ret (all_unions product_rows fixed)))
  /\ (forall c f k, c ∈ product_rows -> f ∈ fixed -> k ∈ dom c -> k ∈ dom f ->
      combine_fill_table_parameters keyfield_names parameters fixed
      = Raise (ParameterCombinationError KeyUsedMoreThanOnce)).
Proof.
  intros Hrows Hfixed product_rows. subst product_rows.
  set (product_rows := create_combination_from_parameters keyfield_names parameters) in *.
  split.
  - intros Hdisj.
    assert (Hm : merged_combinations keyfield_names parameters fixed
                 = Ret (all_unions product_rows fixed)).
    { rewrite merged_fixed by done. by apply add_individual_disjoint. }
    split; [done|]. split; [apply all_unions_length|].
    split; [by apply combine_unfold|].
    intros Hcover. rewrite (combine_unfold _ _ _ _ Hm).
    apply validate_combinations_ok.
    + intros E. pose proof (all_unions_length product_rows fixed) as Hl.
      rewrite E in Hl. simpl in Hl.
      destruct product_rows; [done|]. destruct fixed; [done|]. simpl in Hl. lia.
    + apply Forall_forall. intros row Hrow.
      apply elem_of_all_unions in Hrow as (c & f & Hc & Hf & ->). by apply Hcover.
  - intros c f k Hc Hf Hkc Hkf. unfold combine_fill_table_parameters.
    rewrite merged_fixed by done.
    rewrite (add_individual_collision _ _ c f); [done|done|done|].
    intros E. assert (Hk : k ∈ dom c ∩ dom f) by (by apply elem_of_intersection).
    rewrite E in Hk. by apply elem_of_empty in Hk.
Qed.

Lemma combine_with_fixed_rows_witness :
  combine_fill_table_parameters ["a"; "b"] (<["a" := [1%Z; 2%Z]]> ∅)
    [ <["b" := 7%Z]> ∅; <["b" := 8%Z]> ∅ ]
  = Ret [ <["a" := 1%Z]> (<["b" := 7%Z]> ∅); <["a" := 1%Z]> (<["b" := 8%Z]> ∅);
          <["a" := 2%Z]> (<["b" := 7%Z]> ∅); <["a" := 2%Z]> (<["b" := 8%Z]> ∅) ].
Proof.
  pose proof (combine_with_fixed_rows ["a"; "b"] (<["a" := [1%Z; 2%Z]]> ∅)
                [ <["b" := 7%Z]> ∅; <["b" := 8%Z]> ∅ ]) as H.
  destruct H as [H _]; [by vm_compute | done |].
  destruct H as (_ & _ & _ & H).
  - intros c f Hc Hf. vm_compute in Hc. elem_cases Hc; elem_cases Hf; by vm_compute.
  - rewrite H; [by vm_compute|].
    intros c f Hc Hf. vm_compute in Hc. elem_cases Hc; elem_cases Hf; by vm_compute.
Defined.

(** C3: [combine_fill_table_parameters] raises ParameterCombinationError
    whenever the combinations it arrived at are none, or one of them has a
    key set other than the declared keyfield names; it raises nothing but
    ParameterCombinationError; and what it returns is non-empty with every
    key set equal to the declared keyfield names. *)
Theorem combine_postconditions {V : Type} `{!CommonDtype V}
    (keyfield_names : list string)
    (parameters : gmap string (list V)) (fixed : list (gmap string V)) :
  (forall candidates,
      merged_combinations keyfield_names parameters fixed = Ret candidates ->
      candidates = []
      \/ Exists (fun c => dom c ≠ list_to_set keyfield_names) candidates ->
      exists msg,
        combine_fill_table_parameters keyfield_names parameters fixed
        = Raise (ParameterCombinationError msg))
  /\ (forall e,
        combine_fill_table_parameters keyfield_names parameters fixed = Raise e ->
        exists msg, e = ParameterCombinationError msg)
  /\ (forall rows,
        combine_fill_table_parameters keyfield_names parameters fixed = Ret rows ->
        rows ≠ []
        /\ Forall (fun c => dom c = list_to_set keyfield_names) rows).
Proof.
  split; [|split].
  - intros candidates Hm Hbad. rewrite (combine_unfold _ _ _ _ Hm).
    by apply validate_combinations_raise.
  - intros e He. unfold combine_fill_table_parameters in He.
    destruct (merged_combinations keyfield_names parameters fixed) as [cs|e'] eqn:Hm;
      simpl in He.
    + apply validate_combinations_exn in He as [-> | ->]; eauto.
    + injection He as ->. apply merged_exn in Hm as ->. eauto.
  - intros rows Hr. unfold combine_fill_table_parameters in Hr.
    destruct (merged_combinations keyfield_names parameters fixed) as [cs|e'] eqn:Hm;
      simpl in Hr; [|done].
    apply validate_combinations_inv in Hr as (-> & Hne & Hall). done.
Qed.

Lemma combine_postconditions_witness :
  (exists msg,
      combine_fill_table_parameters ["a"; "b"] (<["a" := [1%Z]]> ∅) []
      = Raise (ParameterCombinationError msg))
  /\ (exists msg,
        combine_fill_table_parameters ["a"] (∅ : gmap string (list Z)) []
        = Raise (ParameterCombinationError msg)).
Proof.
  split.
  - apply (proj1 (combine_postconditions ["a"; "b"] (<["a" := [1%Z]]> ∅) [])
             [ <["a" := 1%Z]> ∅ ]); [by vm_compute|].
    right. apply Exists_cons_hd. by vm_compute.
  - apply (proj1 (combine_postconditions ["a"] (∅ : gmap string (list Z)) []) []);
      [by vm_compute | by left].
Defined.

(** C9: when no declared keyfield has a domain and fixed combinations
    are given, the product is empty and the fixed combinations are the
    candidate set as they are: the call is the post-condition check of the
    fixed combinations, and what it returns is that very list. *)
Theorem combine_fixed_verbatim {V : Type} `{!CommonDtype V}
    (keyfield_names : list string)
    (parameters : gmap string (list V)) (fixed : list (gmap string V)) :
  fixed ≠ [] ->
  (forall k, k ∈ keyfield_names -> parameters !! k = None) ->
  create_combination_from_parameters keyfield_names parameters = []
  /\ merged_combinations keyfield_names parameters fixed = Ret fixed
  /\ combine_fill_table_parameters keyfield_names parameters fixed
     = validate_combinations keyfield_names fixed
  /\ (Forall (fun c => dom c = list_to_set keyfield_names) fixed ->
      combine_fill_table_parameters keyfield_names parameters fixed = Ret fixed)
  /\ (forall rows,
        combine_fill_table_parameters keyfield_names parameters fixed = Ret rows ->
        rows = fixed).
Proof.
  intros Hfixed Hnone.
  assert (Hc : create_combination_from_parameters keyfield_names parameters = []).
  { rewrite create_combination_unfold. by rewrite collect_no_domain. }
  assert (Hm : merged_combinations keyfield_names parameters fixed = Ret fixed).
  { rewrite merged_fixed by done. by rewrite Hc. }
  pose proof (combine_unfold _ _ _ _ Hm) as Hv.
  repeat split; try done.
  - intros Hall. rewrite Hv. by apply validate_combinations_ok.
  - intros rows Hr. rewrite Hv in Hr.
    by apply validate_combinations_inv in Hr as (-> & _).
Qed.

Lemma combine_fixed_verbatim_witness :
  combine_fill_table_parameters ["value"; "exponent"] (∅ : gmap string (list Z))
    [ <["value" := 1%Z]> (<["exponent" := 3%Z]> ∅);
      <["value" := 2%Z]> (<["exponent" := 2%Z]> ∅) ]
  = Ret [ <["value" := 1%Z]> (<["exponent" := 3%Z]> ∅);
          <["value" := 2%Z]> (<["exponent" := 2%Z]> ∅) ].
Proof.
  destruct (combine_fixed_verbatim ["value"; "exponent"] (∅ : gmap string (list Z))
              [ <["value" := 1%Z]> (<["exponent" := 3%Z]> ∅);
                <["value" := 2%Z]> (<["exponent" := 2%Z]> ∅) ])
    as (_ & _ & _ & H & _).
  - discriminate.
  - intros k _. apply lookup_empty.
  - apply H. repeat (apply Forall_cons_2 || apply Forall_nil_2); by vm_compute.
Defined.



(** ** The claim step of the MySQL connector *)

Section ClaimStep.
Import MySQL.
Variables (self : backend) (random_order : bool).

(** All calls succeed: the transaction is begun before the select, and
    the connection is closed. *)
Lemma pull_open_experiment_success c cur e :
  connect self = Ret c -> cursor self c = Ret cur -> begin self c = Ret () ->
  _select_open_experiments_from_db self c cur random_order = Ret e ->
  close_connection self c = Ret () ->
  run_pull_open_experiment self random_order
  = ([Connect; Cursor c; Begin c; SelectOpenExperiments c cur random_order;
      CloseConnection c], Ret e).
Proof.
  intros Hc Hcur Hb Hs Hcl.
  unfold run_pull_open_experiment, _pull_open_experiment, try_except_finally,
    _start_transaction, then_, invoke, assign, read, ret, raise. simpl.
  rewrite Hc. simpl. rewrite Hcur. simpl. rewrite Hb. simpl. rewrite Hs. simpl.
  by rewrite Hcl.
Qed.

(** Once connected, a failure of the cursor, of the begin or of the
    select is followed by a rollback and the close of the connection, and
    the same exception reaches the caller. *)
Lemma pull_open_experiment_cursor_failure c err :
  connect self = Ret c -> cursor self c = Raise err -> is_Exception err = true ->
  rollback self c = Ret () -> close_connection self c = Ret () ->
  run_pull_open_experiment self random_order
  = ([Connect; Cursor c; Rollback c; CloseConnection c], Raise err).
Proof.
  intros Hc Hcur He Hr Hcl.
  unfold run_pull_open_experiment, _pull_open_experiment, try_except_finally,
    _start_transaction, then_, invoke, assign, read, ret, raise. simpl.
  rewrite Hc. simpl. rewrite Hcur, He. simpl. rewrite Hr. simpl. by rewrite Hcl.
Qed.

Lemma pull_open_experiment_begin_failure c cur err :
  connect self = Ret c -> cursor self c = Ret cur -> begin self c = Raise err ->
  is_Exception err = true ->
  rollback self c = Ret () -> close_connection self c = Ret () ->
  run_pull_open_experiment self random_order
  = ([Connect; Cursor c; Begin c; Rollback c; CloseConnection c], Raise err).
Proof.
  intros Hc Hcur Hb He Hr Hcl.
  unfold run_pull_open_experiment, _pull_open_experiment, try_except_finally,
    _start_transaction, then_, invoke, assign, read, ret, raise. simpl.
  rewrite Hc. simpl. rewrite Hcur. simpl. rewrite Hb, He. simpl.
  rewrite Hr. simpl. by rewrite Hcl.
Qed.

Lemma pull_open_experiment_select_failure c cur err :
  connect self = Ret c -> cursor self c = Ret cur -> begin self c = Ret () ->
  _select_open_experiments_from_db self c cur random_order = Raise err ->
  is_Exception err = true ->
  rollback self c = Ret () -> close_connection self c = Ret () ->
  run_pull_open_experiment self random_order
  = ([Connect; Cursor c; Begin c; SelectOpenExperiments c cur random_order;
      Rollback c; CloseConnection c], Raise err).
Proof.
  intros Hc Hcur Hb Hs He Hr Hcl.
  unfold run_pull_open_experiment, _pull_open_experiment, try_except_finally,
    _start_transaction, then_, invoke, assign, read, ret, raise. simpl.
  rewrite Hc. simpl. rewrite Hcur. simpl. rewrite Hb. simpl. rewrite Hs, He. simpl.
  rewrite Hr. simpl. by rewrite Hcl.
Qed.

End ClaimStep.

Example pull_open_experiment_failing_select :
  MySQL.run_pull_open_experiment failing_select true
  = ([MySQL.Connect; MySQL.Cursor 7; MySQL.Begin 7;
      MySQL.SelectOpenExperiments 7 0 true; MySQL.Rollback 7;
      MySQL.CloseConnection 7],
     Raise (PyException "OperationalError" "lock wait timeout")).
Proof. reflexivity. Qed.

(** C4 fails on the code when [connect] itself raises: [connection] is
    then unbound, so the handler's [connection.rollback()] and the
    [finally] clause's [close_connection(connection)] both raise
    UnboundLocalError.  No rollback and no close is issued, and the caller
    receives UnboundLocalError in place of the exception of [connect]. *)
Theorem pull_open_experiment_connect_failure (self : MySQL.backend)
    (random_order : bool) (err : exn) :
  MySQL.connect self = Raise err ->
  is_Exception err = true ->
  MySQL.run_pull_open_experiment self random_order
  = ([MySQL.Connect], Raise (UnboundLocalError "connection")).
Proof.
  intros Hc He.
  unfold MySQL.run_pull_open_experiment, MySQL._pull_open_experiment,
    MySQL.try_except_finally, MySQL.then_, MySQL.invoke, MySQL.read. simpl.
  rewrite Hc, He. reflexivity.
Qed.

Lemma pull_open_experiment_connect_failure_witness :
  MySQL.run_pull_open_experiment unreachable_server false
  = ([MySQL.Connect], Raise (UnboundLocalError "connection"))
  /\ MySQL.connect unreachable_server
     = Raise (DatabaseConnectionError "(2003) cannot connect to server").
Proof.
  split; [|reflexivity].
  apply (pull_open_experiment_connect_failure unreachable_server false
           (DatabaseConnectionError "(2003) cannot connect to server"));
    reflexivity.
Defined.

(** C5: the pull query of the MySQL connector is the base pull query
    followed by " FOR UPDATE;", its random-order expression is "RAND()",
    its autoincrement syntax is "AUTO_INCREMENT", and a transaction that
    is not read-only is begun explicitly on the connection. *)
Theorem server_capability_profile (super_get_pull_experiment_query : string -> string)
    (order_by : string) :
  MySQL._get_pull_experiment_query super_get_pull_experiment_query order_by
  = super_get_pull_experiment_query order_by +:+ " FOR UPDATE;"
  /\ MySQL.random_order_string = "RAND()"
  /\ MySQL.get_autoincrement = "AUTO_INCREMENT"
  /\ forall (self : MySQL.backend) (connection : MySQL.handle) (s : MySQL.state),
       MySQL._start_transaction self connection false s
       = ({| MySQL.trace := MySQL.trace s ++ [MySQL.Begin connection];
             MySQL.locals := MySQL.locals s |},
          MySQL.begin self connection).
Proof. repeat split. Qed.

(** ** More on the cartesian product *)

Section ProductMore.
Context {V : Type} `{!CommonDtype V}.
Implicit Types (arrays : list (list V)) (row : list V)
  (parameters : gmap string (list V)) (keyfield_names : list string).




Lemma product_zero (sizes : list nat) : 0 ∈ sizes -> product sizes = 0.
Proof.
  induction sizes as [|n sizes IH]; intros H; [by apply elem_of_nil in H|].
  apply elem_of_cons in H as [<- | H]; unfold product in *; simpl; [done|].
  rewrite IH by done. lia.
Qed.

Lemma collect_data_elem keyfield_names parameters k d :
  k ∈ keyfield_names -> parameters !! k = Some d ->
  d ∈ (collect_keyfield_data keyfield_names parameters).1.
Proof.
  intros Hk Hd. rewrite collect_data. apply list_elem_of_omap. by exists k.
Qed.

Lemma collect_used_elem keyfield_names parameters k :
  k ∈ (collect_keyfield_data keyfield_names parameters).2
  <-> k ∈ keyfield_names /\ is_Some (parameters !! k).
Proof. rewrite collect_used, list_elem_of_filter. tauto. Qed.



End ProductMore.



(** ** What a normal return says about the arguments *)

Section EngineReturn.
Context {V : Type} `{!CommonDtype V}.
Implicit Types (parameters : gmap string (list V)) (keyfield_names : list string)
  (fixed combinations : list (gmap string V)).

Lemma create_combination_empty_domain keyfield_names parameters k :
  k ∈ keyfield_names -> parameters !! k = Some [] ->
  create_combination_from_parameters keyfield_names parameters = [].
Proof.
  intros Hk Hd. rewrite create_combination_unfold.
  pose proof (collect_data_elem _ _ _ _ Hk Hd) as Hin.
  destruct (collect_keyfield_data keyfield_names parameters).1 as [|d ds] eqn:E;
    [done|].
  by rewrite meshgrid_rows_empty_array.
Qed.

Lemma combine_without_product keyfield_names parameters fixed :
  create_combination_from_parameters keyfield_names parameters = [] ->
  combine_fill_table_parameters keyfield_names parameters fixed
  = validate_combinations keyfield_names fixed.
Proof.
  intros Hc. apply combine_unfold. unfold merged_combinations. rewrite Hc.
  by destruct fixed.
Qed.

Lemma add_individual_inv combinations fixed out :
  combinations ≠ [] ->
  add_individual_parameters_to_combinations combinations fixed = Ret out ->
  out = all_unions combinations fixed
  /\ forall c f, c ∈ combinations -> f ∈ fixed -> dom c ∩ dom f = ∅.
Proof.
  intros Hne Hret.
  assert (Hdisj : forall c f, c ∈ combinations -> f ∈ fixed -> dom c ∩ dom f = ∅).
  { intros c f Hc Hf. destruct (decide (dom c ∩ dom f = ∅)) as [|Hn]; [done|].
    rewrite (add_individual_collision _ _ c f Hc Hf Hn) in Hret. discriminate. }
  split; [|done].
  rewrite (add_individual_disjoint _ _ Hne Hdisj) in Hret. by injection Hret.
Qed.

(** The candidate rows behind a normal return. *)
Lemma combine_return_inv keyfield_names parameters fixed rows :
  combine_fill_table_parameters keyfield_names parameters fixed = Ret rows ->
  rows ≠ []
  /\ Forall (fun c => dom c = list_to_set keyfield_names) rows
  /\ merged_combinations keyfield_names parameters fixed = Ret rows.
Proof.
  unfold combine_fill_table_parameters. intros H.
  destruct (merged_combinations keyfield_names parameters fixed) as [cs|e];
    simpl in H; [|done].
  by apply validate_combinations_inv in H as (-> & Hne & Hall).
Qed.

Lemma create_combination_row_dom keyfield_names parameters c k :
  c ∈ create_combination_from_parameters keyfield_names parameters ->
  k ∈ dom c <-> k ∈ keyfield_names /\ is_Some (parameters !! k).
Proof.
  intros Hc. destruct (create_combination_row _ _ _ Hc) as [-> _].
  rewrite elem_of_list_to_set. apply collect_used_elem.
Qed.

End EngineReturn.

(** X2: a declared keyfield with an empty domain empties the whole
    product; the call then equals the post-condition check of the fixed
    rows alone, and without fixed rows it raises
    ParameterCombinationError('No parameter combination found!'). *)
Theorem empty_domain_discards_product {V : Type} `{!CommonDtype V}
    (keyfield_names : list string)
    (parameters : gmap string (list V)) (fixed : list (gmap string V)) (k : string) :
  k ∈ keyfield_names -> parameters !! k = Some [] ->
  create_combination_from_parameters keyfield_names parameters = []
  /\ combine_fill_table_parameters keyfield_names parameters fixed
     = validate_combinations keyfield_names fixed
  /\ combine_fill_table_parameters keyfield_names parameters []
     = Raise (ParameterCombinationError NoCombinationFound).
Proof.
  intros Hk Hd.
  pose proof (create_combination_empty_domain _ _ _ Hk Hd) as Hc.
  split; [done|]. split; by rewrite combine_without_product.
Qed.

Lemma empty_domain_discards_product_witness :
  combine_fill_table_parameters ["a"; "b"]
    (<["a" := [1%Z; 2%Z]]> (<["b" := []]> ∅)) []
  = Raise (ParameterCombinationError NoCombinationFound).
Proof.
  apply (empty_domain_discards_product ["a"; "b"]
           (<["a" := [1%Z; 2%Z]]> (<["b" := []]> ∅)) [] "b").
  - apply list_elem_of_further, list_elem_of_here.
  - reflexivity.
Defined.

(** X3: when [combine_fill_table_parameters] returns, every declared
    keyfield either has a non-empty domain in [parameters] or is a key of
    every fixed row (of which there is at least one). *)
Theorem combine_return_covers_keyfields {V : Type} `{!CommonDtype V}
    (keyfield_names : list string)
    (parameters : gmap string (list V)) (fixed rows : list (gmap string V))
    (k : string) :
  combine_fill_table_parameters keyfield_names parameters fixed = Ret rows ->
  k ∈ keyfield_names ->
  (exists d, parameters !! k = Some d /\ d ≠ [])
  \/ (fixed ≠ [] /\ forall f, f ∈ fixed -> is_Some (f !! k)).
Proof.
  intros Hret Hk.
  apply combine_return_inv in Hret as (Hne & Hall & Hm).
  rewrite Forall_forall in Hall.
  assert (Hkey : forall c, c ∈ rows -> k ∈ dom c).
  { intros c Hc. rewrite (Hall c Hc). by apply elem_of_list_to_set. }
  destruct (create_combination_from_parameters keyfield_names parameters)
    as [|c0 cs] eqn:Hc.
  - right. unfold merged_combinations in Hm. rewrite Hc in Hm.
    destruct fixed as [|f0 fixed]; [by injection Hm as <-|].
    injection Hm as <-. split; [done|].
    intros f Hf. apply elem_of_dom. by apply Hkey.
  - assert (Hc0 : c0 ∈ create_combination_from_parameters keyfield_names parameters)
      by (rewrite Hc; apply list_elem_of_here).
    destruct (parameters !! k) as [d|] eqn:Hd.
    + left. exists d. split; [done|]. intros ->.
      by rewrite (create_combination_empty_domain _ _ _ Hk Hd) in Hc.
    + right.
      assert (Hnot : k ∉ dom c0).
      { rewrite (create_combination_row_dom _ _ _ _ Hc0), Hd.
        intros [_ [? ?]]. done. }
      unfold merged_combinations in Hm. rewrite Hc in Hm.
      destruct fixed as [|f0 fixed].
      { injection Hm as <-. destruct Hnot. apply Hkey, list_elem_of_here. }
      split; [done|]. intros f Hf.
      apply add_individual_inv in Hm as [-> _]; [|done].
      assert (Hin : k ∈ dom (c0 ∪ f)).
      { apply Hkey. apply elem_of_all_unions. exists c0, f.
        split; [apply list_elem_of_here | done]. }
      rewrite dom_union_L in Hin. apply elem_of_union in Hin as [Hin|Hin]; [done|].
      by apply elem_of_dom.
Qed.

Lemma combine_return_covers_keyfields_witness :
  (exists d, (<["a" := [1%Z; 2%Z]]> ∅ : gmap string (list Z)) !! "b" = Some d /\ d ≠ [])
  \/ ([ <["b" := 7%Z]> (∅ : gmap string Z) ] ≠ []
      /\ forall f, f ∈ [ <["b" := 7%Z]> (∅ : gmap string Z) ] -> is_Some (f !! "b")).
Proof.
  apply (combine_return_covers_keyfields ["a"; "b"] (<["a" := [1%Z; 2%Z]]> ∅)
           [ <["b" := 7%Z]> ∅ ]
           [ <["a" := 1%Z]> (<["b" := 7%Z]> ∅); <["a" := 2%Z]> (<["b" := 7%Z]> ∅) ]).
  - vm_compute. reflexivity.
  - apply list_elem_of_further, list_elem_of_here.
Defined.

(** X4: when [combine_fill_table_parameters] returns and the product is
    not empty, every fixed row has as its keys exactly the declared
    keyfields that have no domain: a fixed row can neither leave one of
    them out, nor name an undeclared key, nor override a domain. *)
Theorem combine_return_fixed_keys {V : Type} `{!CommonDtype V}
    (keyfield_names : list string)
    (parameters : gmap string (list V)) (fixed rows : list (gmap string V))
    (f : gmap string V) :
  combine_fill_table_parameters keyfield_names parameters fixed = Ret rows ->
  create_combination_from_parameters keyfield_names parameters ≠ [] ->
  f ∈ fixed ->
  forall k, is_Some (f !! k) <-> k ∈ keyfield_names /\ parameters !! k = None.
Proof.
  intros Hret Hprod Hf k.
  apply combine_return_inv in Hret as (Hne & Hall & Hm).
  rewrite Forall_forall in Hall.
  destruct (create_combination_from_parameters keyfield_names parameters)
    as [|c0 cs] eqn:Hc; [done|].
  assert (Hc0 : c0 ∈ create_combination_from_parameters keyfield_names parameters)
    by (rewrite Hc; apply list_elem_of_here).
  unfold merged_combinations in Hm. rewrite Hc in Hm.
  destruct fixed as [|f0 fixed]; [by apply elem_of_nil in Hf|].
  apply add_individual_inv in Hm as [-> Hdisj]; [|done].
  assert (Hdom : dom (c0 ∪ f) = list_to_set keyfield_names).
  { apply Hall. apply elem_of_all_unions. exists c0, f.
    split; [apply list_elem_of_here | done]. }
  assert (Hd : dom c0 ∩ dom f = ∅) by (apply Hdisj; [apply list_elem_of_here | done]).
  pose proof (create_combination_row_dom _ _ _ k Hc0) as Hused.
  rewrite <- elem_of_dom. split.
  - intros Hk.
    assert (Hkn : k ∈ keyfield_names).
    { apply (elem_of_list_to_set (C := gset string)). rewrite <- Hdom, dom_union_L.
      apply elem_of_union. by right. }
    split; [done|].
    destruct (parameters !! k) as [d|] eqn:E; [|done].
    assert (Hk0 : k ∈ dom c0) by (apply Hused; eauto).
    assert (Hboth : k ∈ dom c0 ∩ dom f) by (by apply elem_of_intersection).
    rewrite Hd in Hboth. by apply elem_of_empty in Hboth.
  - intros [Hkn Hnone].
    assert (Hin : k ∈ dom (c0 ∪ f)) by (rewrite Hdom; by apply elem_of_list_to_set).
    rewrite dom_union_L in Hin. apply elem_of_union in Hin as [Hin|Hin]; [|done].
    apply Hused in Hin as [_ [d Hd']]. congruence.
Qed.

Lemma combine_return_fixed_keys_witness :
  is_Some ((<["b" := 7%Z]> ∅ : gmap string Z) !! "b")
  <-> "b" ∈ ["a"; "b"] /\ (<["a" := [1%Z; 2%Z]]> ∅ : gmap string (list Z)) !! "b" = None.
Proof.
  apply (combine_return_fixed_keys ["a"; "b"] (<["a" := [1%Z; 2%Z]]> ∅)
           [ <["b" := 7%Z]> ∅ ]
           [ <["a" := 1%Z]> (<["b" := 7%Z]> ∅); <["a" := 2%Z]> (<["b" := 7%Z]> ∅) ]).
  - vm_compute. reflexivity.
  - vm_compute. discriminate.
  - apply list_elem_of_here.
Defined.

(** ** Distinct rows *)

Section Distinct.
Context {V : Type} `{!CommonDtype V}.
Implicit Types (arrays : list (list V)) (row : list V) (keys : list string).




Lemma foldl_insert_lookup_notin keys (values : list V) (d : gmap string V) k :
  k ∉ keys ->
  foldl (fun d kv => <[kv.1 := kv.2]> d) d (zip keys values) !! k = d !! k.
Proof.
  revert values d. induction keys as [|k0 keys IH]; intros [|v values] d Hk;
    [done | done | done |].
  apply not_elem_of_cons in Hk as [Hne Hk]. simpl.
  rewrite IH by done. by rewrite lookup_insert_ne.
Qed.

(** With distinct keys, the dict gives each key the value at its position. *)
Lemma dict_zip_lookup_position keys (values : list V) i k v :
  NoDup keys -> keys !! i = Some k -> values !! i = Some v ->
  dict_zip keys values !! k = Some v.
Proof.
  unfold dict_zip. generalize (∅ : gmap string V) as d.
  revert values i. induction keys as [|k0 keys IH]; intros values i d Hnd Hk Hv;
    [done|].
  destruct values as [|v0 values]; [done|].
  apply NoDup_cons in Hnd as [Hnotin Hnd]. simpl.
  destruct i as [|i]; simpl in Hk, Hv.
  - injection Hk as ->. injection Hv as ->.
    rewrite foldl_insert_lookup_notin by done. apply lookup_insert_eq.
  - by apply (IH values i).
Qed.


End Distinct.



(** ** More on the string operations *)

Module PyStrMore.
Import PyStr PyStrFacts.

Lemma rstrip_snoc ch s : rstrip ch (s +:+ String ch EmptyString) = rstrip ch s.
Proof.
  induction s as [|c s IH].
  - rewrite append_nil_l. simpl. by rewrite Ascii.eqb_refl.
  - rewrite append_cons. simpl. by rewrite IH.
Qed.

Lemma split_cons sep c s :
  split sep (String c s)
  = if Ascii.eqb c sep then EmptyString :: split sep s
    else match split sep s with
         | h :: t => String c h :: t
         | [] => [String c EmptyString]
         end.
Proof. reflexivity. Qed.

(** The pieces of a split do not hold the separator. *)
Lemma split_pieces_free sep s :
  Forall (fun p => contains sep p = false) (split sep s).
Proof.
  induction s as [|c s IH]; [by repeat constructor|].
  rewrite split_cons. destruct (Ascii.eqb c sep) eqn:E; [by constructor|].
  destruct (split sep s) as [|h t]; [by repeat constructor; simpl; rewrite E|].
  apply Forall_cons in IH as [Hh Ht]. constructor; [|done].
  simpl. by rewrite E.
Qed.

(** A character absent from the string is absent from every piece. *)
Lemma split_pieces_keep_free sep ch s :
  contains ch s = false -> Forall (fun p => contains ch p = false) (split sep s).
Proof.
  induction s as [|c s IH]; [by repeat constructor|].
  rewrite contains_cons. intros H. apply orb_false_iff in H as [Hc Hs].
  specialize (IH Hs). rewrite split_cons.
  destruct (Ascii.eqb c sep); [by constructor|].
  destruct (split sep s) as [|h t]; [by repeat constructor; simpl; rewrite Hc|].
  apply Forall_cons in IH as [Hh Ht]. constructor; [|done].
  simpl. by rewrite Hc.
Qed.

Lemma remove_contains ch s : contains ch (remove ch s) = false.
Proof.
  induction s as [|c s IH]; [done|]. simpl.
  destruct (Ascii.eqb c ch) eqn:E; [done|]. simpl. by rewrite E.
Qed.


(** Joining the pieces of a split gives the string back. *)
Lemma join_split sep s : join sep (split sep s) = s.
Proof.
  induction s as [|c s IH]; [done|].
  rewrite split_cons. destruct (Ascii.eqb_spec c sep) as [->|Hne].
  - rewrite join_cons by apply split_not_nil. by rewrite IH, append_nil_l.
  - destruct (split sep s) as [|h [|h' t]] eqn:E.
    + by destruct (split_not_nil sep s).
    + simpl in *. by rewrite IH.
    + rewrite join_cons in IH by done.
      rewrite join_cons by done. by rewrite append_cons, IH.
Qed.

End PyStrMore.

(** ** More on the field schema model *)

Section FieldSchemaMore.
Import PyStr PyStrFacts PyStrMore.

Lemma clean_fields_tokens fields :
  Forall (fun tok => contains "," tok = false /\ contains " " tok = false)
         (clean_fields fields).
Proof.
  destruct fields as [|c s]; [constructor|].
  unfold clean_fields. apply Forall_fmap.
  eapply Forall_impl; [apply (split_pieces_free "," (rstrip "," (String c s)))|].
  intros p Hp. simpl. split; [by apply remove_keeps_free | apply remove_contains].
Qed.

Lemma typed_field_free ch tok :
  ch ≠ ":"%char -> contains ch tok = false ->
  contains ch (typed_field tok).1 = false
  /\ (contains ch VARCHAR255 = false -> contains ch (typed_field tok).2 = false).
Proof.
  intros Hch Htok. unfold typed_field.
  pose proof (split_pieces_keep_free ":" ch tok Htok) as Hp.
  destruct (split ":" tok) as [|a [|b [|c l]]]; simpl; try done.
  apply Forall_cons in Hp as [Ha Hp]. apply Forall_cons in Hp as [Hb _]. done.
Qed.

Lemma typed_field_one_colon tok :
  count ":" tok = 1 ->
  exists name ty,
    typed_field tok = (name, ty) /\ tok = name +:+ String ":" ty
    /\ contains ":" name = false /\ contains ":" ty = false.
Proof.
  intros H. unfold typed_field.
  pose proof (split_length ":" tok) as Hl.
  pose proof (join_split ":" tok) as Hj.
  pose proof (split_pieces_free ":" tok) as Hp.
  destruct (split ":" tok) as [|a [|b [|c l]]]; simpl in Hl; try lia.
  exists a, b. apply Forall_cons in Hp as [Ha Hp]. apply Forall_cons in Hp as [Hb _].
  by rewrite <- Hj.
Qed.

Lemma typed_field_other tok :
  count ":" tok ≠ 1 -> typed_field tok = (tok, VARCHAR255).
Proof.
  intros H. unfold typed_field.
  pose proof (split_length ":" tok) as Hl.
  destruct (split ":" tok) as [|a [|b [|c l]]]; simpl in Hl; try done. lia.
Qed.

End FieldSchemaMore.

(** X6: trailing commas are ignored: a non-empty field list followed by
    one more ',' parses to the same fields. *)
Theorem get_fields_trailing_comma_ignored (fields : string) :
  fields ≠ EmptyString ->
  get_fields (fields +:+ ",") = get_fields fields.
Proof.
  intros Hne. destruct fields as [|c s]; [done|].
  rewrite PyStrFacts.append_cons. unfold get_fields.
  rewrite <- PyStrFacts.append_cons. by rewrite PyStrMore.rstrip_snoc.
Qed.

Lemma get_fields_trailing_comma_ignored_witness :
  get_fields "value:int,exponent:int," = get_fields "value:int,exponent:int".
Proof.
  apply (get_fields_trailing_comma_ignored "value:int,exponent:int"). discriminate.
Defined.

(** X7: a non-empty field list never parses to no field: there is one
    field more than there are commas left after the trailing ones are
    stripped (so a list of commas only gives one field of empty name). *)
Theorem get_fields_count (fields : string) :
  fields ≠ EmptyString ->
  exists typed_fields,
    get_fields fields = Ret typed_fields
    /\ length typed_fields = S (PyStr.count "," (PyStr.rstrip "," fields)).
Proof.
  intros Hne. destruct fields as [|c s]; [done|].
  eexists. split; [reflexivity|].
  by rewrite !length_map, PyStrFacts.split_length.
Qed.

Lemma get_fields_count_witness :
  exists typed_fields,
    get_fields ",," = Ret typed_fields /\ length typed_fields = 1.
Proof.
  destruct (get_fields_count ",,") as (l & Hl & Hlen); [discriminate|].
  exists l. split; [exact Hl | exact Hlen].
Defined.

(** X8: no field name and no field type returned by [get_fields] holds a
    space or a comma. *)
Theorem get_fields_no_space_no_comma (fields : string)
    (typed_fields : list field) (name ty : string) :
  get_fields fields = Ret typed_fields ->
  (name, ty) ∈ typed_fields ->
  PyStr.contains " " name = false /\ PyStr.contains "," name = false
  /\ PyStr.contains " " ty = false /\ PyStr.contains "," ty = false.
Proof.
  rewrite get_fields_clean_fields. intros [= <-] Hin.
  apply list_elem_of_fmap in Hin as (tok & Heq & Htok).
  pose proof (clean_fields_tokens fields) as Hall.
  rewrite Forall_forall in Hall. destruct (Hall tok Htok) as [Hcomma Hspace].
  destruct (typed_field_free " " tok) as [Hn1 Ht1]; [done | done |].
  destruct (typed_field_free "," tok) as [Hn2 Ht2]; [done | done |].
  rewrite <- Heq in *. simpl in *. auto.
Qed.

Lemma get_fields_no_space_no_comma_witness :
  PyStr.contains " " "seed" = false /\ PyStr.contains "," "seed" = false
  /\ PyStr.contains " " "int" = false /\ PyStr.contains "," "int" = false.
Proof.
  apply (get_fields_no_space_no_comma " dataset , seed : int "
           [("dataset", "VARCHAR(255)"); ("seed", "int")]).
  - reflexivity.
  - apply list_elem_of_further, list_elem_of_here.
Defined.

(** X9: the i-th field comes from the i-th token alone.  A token with
    exactly one ':' is cut there into name and type, none of which holds a
    ':', and putting them together again gives the token; any other token
    is the name as a whole, with the type VARCHAR(255). *)
Theorem get_fields_token_round_trip (fields : string) (typed_fields : list field)
    (i : nat) (tok : string) :
  get_fields fields = Ret typed_fields ->
  clean_fields fields !! i = Some tok ->
  exists name ty,
    typed_fields !! i = Some (name, ty)
    /\ ((PyStr.count ":" tok = 1 /\ tok = name +:+ String ":" ty
         /\ PyStr.contains ":" name = false /\ PyStr.contains ":" ty = false)
        \/ (PyStr.count ":" tok ≠ 1 /\ name = tok /\ ty = "VARCHAR(255)")).
Proof.
  rewrite get_fields_clean_fields. intros [= <-] Htok.
  rewrite list_lookup_fmap, Htok. simpl.
  destruct (decide (PyStr.count ":" tok = 1)) as [H1|H1].
  - destruct (typed_field_one_colon tok H1) as (name & ty & -> & Hrest).
    exists name, ty. split; [done|]. left. by split.
  - rewrite (typed_field_other tok H1). exists tok, VARCHAR255. split; [done|].
    right. by split.
Qed.

Lemma get_fields_token_round_trip_witness :
  exists name ty,
    [("a", VARCHAR255); ("b", "DECIMAL(5.2)")] !! 1 = Some (name, ty)
    /\ ((PyStr.count ":" "b:DECIMAL(5.2)" = 1
         /\ "b:DECIMAL(5.2)" = name +:+ String ":" ty
         /\ PyStr.contains ":" name = false /\ PyStr.contains ":" ty = false)
        \/ (PyStr.count ":" "b:DECIMAL(5.2)" ≠ 1
            /\ name = "b:DECIMAL(5.2)" /\ ty = "VARCHAR(255)")).
Proof.
  apply (get_fields_token_round_trip "a, b:DECIMAL(5.2)"); reflexivity.
Defined.

(** ** Keyfield data read from the configuration *)

Section KeyfieldData.
Import PyStr PyStrFacts PyStrMore.
Implicit Types (experiment_config : section) (keyfield_names : list string)
  (keyfield_data : gmap string (list string)).

(** The domain a value definition stands for. *)
Lemma clean_data_spec value :
  let clean_data := map (remove " ") (split "," value) in
  clean_data ≠ []
  /\ length clean_data = S (count "," value)
  /\ Forall (fun v => contains " " v = false /\ contains "," v = false) clean_data.
Proof.
  simpl. split; [|split].
  - pose proof (split_not_nil "," value). by destruct (split "," value).
  - by rewrite length_map, split_length.
  - apply Forall_fmap.
    eapply Forall_impl; [apply (split_pieces_free "," value)|].
    intros p Hp. simpl. split; [apply remove_contains | by apply remove_keeps_free].
Qed.

Lemma keyfield_data_loop_spec experiment_config keyfield_names keyfield_data :
  (forall k e, k ∈ keyfield_names -> experiment_config k = Raise e ->
               is_KeyError e = true) ->
  exists data,
    keyfield_data_loop experiment_config keyfield_names keyfield_data = Ret data
    /\ forall k,
         data !! k
         = match experiment_config k with
           | Ret value =>
               if decide (k ∈ keyfield_names)
               then Some (map (remove " ") (split "," value))
               else keyfield_data !! k
           | Raise _ => keyfield_data !! k
           end.
Proof.
  revert keyfield_data.
  induction keyfield_names as [|k0 rest IH]; intros keyfield_data Hkey.
  - exists keyfield_data. split; [done|]. intros k.
    destruct (experiment_config k); [|done].
    by rewrite decide_False by apply not_elem_of_nil.
  - assert (Hrest : forall k e, k ∈ rest -> experiment_config k = Raise e ->
                                is_KeyError e = true).
    { intros k e Hk. apply Hkey. by apply list_elem_of_further. }
    simpl. destruct (experiment_config k0) as [value|err] eqn:E0.
    + destruct (IH (<[k0 := map (remove " ") (split "," value)]> keyfield_data) Hrest)
        as (data & Hdata & Hlookup).
      exists data. split; [done|]. intros k. rewrite Hlookup.
      destruct (decide (k = k0)) as [->|Hne].
      * rewrite E0, lookup_insert_eq.
        rewrite (decide_True (P := k0 ∈ k0 :: rest)) by apply list_elem_of_here.
        by destruct (decide (k0 ∈ rest)).
      * rewrite lookup_insert_ne by done.
        destruct (experiment_config k); [|done].
        destruct (decide (k ∈ rest)) as [Hin|Hnin].
        -- by rewrite decide_True by (by apply list_elem_of_further).
        -- rewrite decide_False; [done|].
           intros H. apply elem_of_cons in H as [?|?]; done.
    + rewrite (Hkey k0 err) by (apply list_elem_of_here || done).
      destruct (IH keyfield_data Hrest) as (data & Hdata & Hlookup).
      exists data. split; [done|]. intros k. rewrite Hlookup.
      destruct (experiment_config k) as [value|] eqn:E; [|done].
      destruct (decide (k ∈ rest)) as [Hin|Hnin].
      * by rewrite decide_True by (by apply list_elem_of_further).
      * rewrite decide_False; [done|].
        intros H. apply elem_of_cons in H as [->|?]; [congruence | done].
Qed.

Lemma keyfield_data_loop_exn experiment_config keyfield_names keyfield_data e :
  keyfield_data_loop experiment_config keyfield_names keyfield_data = Raise e ->
  exists k, k ∈ keyfield_names /\ experiment_config k = Raise e
            /\ is_KeyError e = false.
Proof.
  revert keyfield_data.
  induction keyfield_names as [|k0 rest IH]; intros keyfield_data H; [done|].
  simpl in H. destruct (experiment_config k0) as [value|err] eqn:E0.
  - destruct (IH _ H) as (k & Hk & Hrest).
    exists k. split; [by apply list_elem_of_further | done].
  - destruct (is_KeyError err) eqn:Ek.
    + destruct (IH _ H) as (k & Hk & Hrest).
      exists k. split; [by apply list_elem_of_further | done].
    + injection H as <-. exists k0. split; [apply list_elem_of_here | done].
Qed.

Lemma get_keyfield_data_unfold (config : config) keyfield_names experiment_config :
  get_keyfield_names config = Ret keyfield_names ->
  config "PY_EXPERIMENTER" = Ret experiment_config ->
  get_keyfield_data config
  = keyfield_data_loop experiment_config keyfield_names ∅.
Proof. unfold get_keyfield_data. by intros -> ->. Qed.

End KeyfieldData.

(** X10: [get_keyfield_data] gives exactly the keyfields that have a
    value definition in the PY_EXPERIMENTER section; a keyfield without
    one (KeyError) is left out and nothing is raised.  The domain of a
    keyfield is its value cut at the commas with the spaces removed: it is
    never empty, has one value more than the definition has commas, and no
    value holds a space or a comma. *)
Theorem get_keyfield_data_domains (config : config)
    (keyfield_names : list string) (experiment_config : section) :
  get_keyfield_names config = Ret keyfield_names ->
  config "PY_EXPERIMENTER" = Ret experiment_config ->
  (forall k e, k ∈ keyfield_names -> experiment_config k = Raise e ->
               is_KeyError e = true) ->
  exists keyfield_data,
    get_keyfield_data config = Ret keyfield_data
    /\ (forall k,
          is_Some (keyfield_data !! k)
          <-> k ∈ keyfield_names /\ exists value, experiment_config k = Ret value)
    /\ (forall k domain,
          keyfield_data !! k = Some domain ->
          exists value,
            experiment_config k = Ret value
            /\ domain = map (PyStr.remove " ") (PyStr.split "," value)
            /\ domain ≠ []
            /\ length domain = S (PyStr.count "," value)
            /\ Forall (fun v => PyStr.contains " " v = false
                                /\ PyStr.contains "," v = false) domain).
Proof.
  intros Hnames Hsec Hkey.
  destruct (keyfield_data_loop_spec experiment_config keyfield_names ∅ Hkey)
    as (data & Hdata & Hlookup).
  exists data. split; [by rewrite (get_keyfield_data_unfold _ _ _ Hnames Hsec)|].
  split.
  - intros k. rewrite Hlookup.
    destruct (experiment_config k) as [value|e].
    + destruct (decide (k ∈ keyfield_names)) as [Hin|Hnin].
      * split; [eauto | by eexists].
      * rewrite lookup_empty. split; [by intros [? ?] | by intros [? _]].
    + rewrite lookup_empty. split; [by intros [? ?] | by intros [_ [? ?]]].
  - intros k domain Hk. rewrite Hlookup in Hk.
    destruct (experiment_config k) as [value|e]; [|by rewrite lookup_empty in Hk].
    destruct (decide (k ∈ keyfield_names)); [|by rewrite lookup_empty in Hk].
    injection Hk as <-. exists value. split; [done|]. split; [done|].
    apply clean_data_spec.
Qed.

(** X11: the only failures of a value lookup that [get_keyfield_data]
    lets through are those that are no KeyError. *)
Theorem get_keyfield_data_raises (config : config)
    (keyfield_names : list string) (experiment_config : section) (e : exn) :
  get_keyfield_names config = Ret keyfield_names ->
  config "PY_EXPERIMENTER" = Ret experiment_config ->
  get_keyfield_data config = Raise e ->
  exists k, k ∈ keyfield_names /\ experiment_config k = Raise e
            /\ is_KeyError e = false.
Proof.
  intros Hnames Hsec. rewrite (get_keyfield_data_unfold _ _ _ Hnames Hsec).
  apply keyfield_data_loop_exn.
Qed.

(** X12: filling from the configuration.  When every declared keyfield
    (there is at least one) has a value definition, combining the keyfield
    names with the keyfield data and no fixed rows returns as many rows as
    the product, over the keyfields, of one plus the number of commas of
    the definition. *)
Theorem combine_keyfield_data (config : config)
    (keyfield_names : list string) (experiment_config : section) :
  get_keyfield_names config = Ret keyfield_names ->
  config "PY_EXPERIMENTER" = Ret experiment_config ->
  keyfield_names ≠ [] ->
  (forall k, k ∈ keyfield_names -> exists value, experiment_config k = Ret value) ->
  exists keyfield_data rows,
    get_keyfield_data config = Ret keyfield_data
    /\ combine_fill_table_parameters keyfield_names keyfield_data [] = Ret rows
    /\ length rows
       = product (map (fun k => match experiment_config k with
                                | Ret value => S (PyStr.count "," value)
                                | Raise _ => 0
                                end) keyfield_names).
Proof.
  intros Hnames Hsec Hne Hall.
  destruct (keyfield_data_loop_spec experiment_config keyfield_names ∅)
    as (data & Hdata & Hlookup).
  { intros k e Hk He. destruct (Hall k Hk) as [v Hv]. congruence. }
  assert (Hdom : forall k, k ∈ keyfield_names ->
                   exists value, experiment_config k = Ret value
                     /\ data !! k = Some (map (PyStr.remove " ") (PyStr.split "," value))).
  { intros k Hk. destruct (Hall k Hk) as [v Hv]. exists v. split; [done|].
    by rewrite Hlookup, Hv, decide_True. }
  destruct (collect_all keyfield_names data) as [Hused Hsizes].
  { intros k Hk. destruct (Hdom k Hk) as (v & _ & ->). eauto. }
  assert (Hsz : domain_sizes keyfield_names data
                = map (fun k => match experiment_config k with
                                | Ret value => S (PyStr.count "," value)
                                | Raise _ => 0
                                end) keyfield_names).
  { unfold domain_sizes. apply Forall_fmap_ext_1, Forall_forall. intros k Hk.
    destruct (Hdom k Hk) as (v & Hv & ->). rewrite Hv. simpl.
    by rewrite length_map, PyStrFacts.split_length. }
  assert (Hdata' : (collect_keyfield_data keyfield_names data).1 ≠ []).
  { intros E. rewrite E in Hsizes. by destruct keyfield_names. }
  pose proof (create_combination_length keyfield_names data Hdata') as Hlen.
  rewrite Hsizes, Hsz in Hlen.
  exists data, (create_combination_from_parameters keyfield_names data).
  split; [by rewrite (get_keyfield_data_unfold _ _ _ Hnames Hsec)|].
  split; [|done].
  rewrite (combine_unfold _ _ _ _ (merged_no_fixed _ _)).
  apply validate_combinations_ok.
  - intros E. rewrite E in Hlen. simpl in Hlen. symmetry in Hlen.
    revert Hlen. apply Nat.neq_0_lt_0. apply product_pos.
    apply Forall_fmap, Forall_forall. intros k Hk. simpl.
    destruct (Hall k Hk) as [v ->]. lia.
  - apply Forall_forall. intros row Hrow.
    destruct (create_combination_row _ _ _ Hrow) as [-> _]. by rewrite Hused.
Qed.

(** ** Database credentials *)

(** X13: whatever [extract_db_credentials_and_table_name_from_config]
    returns, the table name holds no space; host, user and password are
    None for the provider sqlite, whose section needs none of them, and
    are the section's entries for every other provider. *)
Theorem extract_db_credentials_returns (config : config)
    (table_name database : string) (host user password : option string) :
  extract_db_credentials_and_table_name_from_config config
  = Ret (table_name, host, user, database, password) ->
  PyStr.contains " " table_name = false
  /\ exists database_config provider table,
       config "DATABASE" = Ret database_config
       /\ database_config "provider" = Ret provider
       /\ database_config "database" = Ret database
       /\ database_config "table" = Ret table
       /\ table_name = PyStr.remove " " table
       /\ ((provider = "sqlite" /\ host = None /\ user = None /\ password = None)
           \/ (provider ≠ "sqlite"
               /\ exists h u p,
                    host = Some h /\ user = Some u /\ password = Some p
                    /\ database_config "host" = Ret h
                    /\ database_config "user" = Ret u
                    /\ database_config "password" = Ret p)).
Proof.
  unfold extract_db_credentials_and_table_name_from_config. intros H.
  destruct (config "DATABASE") as [database_config|] eqn:Hc; simpl in H; [|done].
  destruct (database_config "provider") as [provider|] eqn:Hp; simpl in H; [|done].
  destruct (bool_decide (provider = "sqlite")) eqn:Hs.
  - apply bool_decide_eq_true in Hs. simpl in H.
    destruct (database_config "database") as [db|] eqn:Hd; simpl in H; [|done].
    destruct (database_config "table") as [table|] eqn:Ht; simpl in H; [|done].
    injection H as <- <- <- <- <-.
    split; [apply PyStrMore.remove_contains|].
    exists database_config, provider, table. repeat split; try done. by left.
  - apply bool_decide_eq_false in Hs.
    destruct (database_config "host") as [h|] eqn:Hh; simpl in H; [|done].
    destruct (database_config "user") as [u|] eqn:Hu; simpl in H; [|done].
    destruct (database_config "password") as [p|] eqn:Hpw; simpl in H; [|done].
    destruct (database_config "database") as [db|] eqn:Hd; simpl in H; [|done].
    destruct (database_config "table") as [table|] eqn:Ht; simpl in H; [|done].
    injection H as <- <- <- <- <-.
    split; [apply PyStrMore.remove_contains|].
    exists database_config, provider, table. repeat split; try done.
    right. split; [done|]. by exists h, u, p.
Qed.

Lemma get_keyfield_data_domains_witness :
  exists keyfield_data,
    get_keyfield_data example_config = Ret keyfield_data
    /\ keyfield_data !! "seed" = None
    /\ keyfield_data !! "value" = Some ["1"; "2"].
Proof.
  destruct (get_keyfield_data_domains example_config ["value"; "exponent"; "seed"]
              example_experimenter) as (data & Hdata & _ & _).
  - reflexivity.
  - reflexivity.
  - intros k e Hk. elem_cases Hk; vm_compute; by intros [= <-].
  - exists data. split; [exact Hdata|].
    vm_compute in Hdata. injection Hdata as <-. split; reflexivity.
Defined.

Lemma get_keyfield_data_raises_witness :
  exists k, k ∈ ["value"; "exponent"; "seed"]
    /\ broken_experimenter k
       = Raise (PyException "InterpolationSyntaxError"
                  "'%' must be followed by '%' or '('")
    /\ is_KeyError (PyException "InterpolationSyntaxError"
                      "'%' must be followed by '%' or '('") = false.
Proof.
  apply (get_keyfield_data_raises broken_config ["value"; "exponent"; "seed"]
           broken_experimenter); reflexivity.
Defined.

Lemma combine_keyfield_data_witness :
  exists keyfield_data rows,
    get_keyfield_data example_config_two = Ret keyfield_data
    /\ combine_fill_table_parameters ["value"; "exponent"] keyfield_data [] = Ret rows
    /\ length rows = 6.
Proof.
  destruct (combine_keyfield_data example_config_two ["value"; "exponent"]
              (fun option =>
                 if bool_decide (option = "keyfields") then Ret "value:int, exponent:int"
                 else example_experimenter option))
    as (data & rows & Hdata & Hrows & Hlen).
  - reflexivity.
  - reflexivity.
  - discriminate.
  - intros k Hk. elem_cases Hk; by eexists.
  - exists data, rows. split; [exact Hdata|]. split; [exact Hrows | exact Hlen].
Defined.

Lemma extract_db_credentials_returns_witness :
  PyStr.contains " " "exampletable" = false.
Proof.
  apply (extract_db_credentials_returns example_config "exampletable"
           "py_experimenter" None None None).
  reflexivity.
Defined.

(** ** More on the claim step *)

Section ClaimStepMore.
Import MySQL.
Variables (self : backend) (random_order : bool).

Ltac open_step :=
  unfold run_pull_open_experiment, _pull_open_experiment, try_except_finally,
    _start_transaction, then_, invoke, assign, read, ret, raise; simpl.

(** Case analysis on every answer the backend can give. *)
Ltac outcomes :=
  repeat match goal with
         | |- context [connect self] => destruct (connect self) eqn:?; simpl
         | |- context [cursor self ?c] => destruct (cursor self c) eqn:?; simpl
         | |- context [begin self ?c] => destruct (begin self c) eqn:?; simpl
         | |- context [_select_open_experiments_from_db self ?c ?cur ?r] =>
             destruct (_select_open_experiments_from_db self c cur r) eqn:?; simpl
         | |- context [is_Exception ?e] => destruct (is_Exception e) eqn:?; simpl
         | |- context [rollback self ?c] => destruct (rollback self c) eqn:?; simpl
         | |- context [close_connection self ?c] =>
             destruct (close_connection self c) eqn:?; simpl
         end.

(** X14: once [connect] has returned a connection, every execution of
    the claim step, whatever the other calls answer, ends with the close
    of that connection, and closes nothing else. *)
Theorem pull_open_experiment_closes_once c :
  connect self = Ret c ->
  last (run_pull_open_experiment self random_order).1 = Some (CloseConnection c)
  /\ length (filter (fun x => is_close x = true)
               (run_pull_open_experiment self random_order).1) = 1.
Proof. intros Hc. open_step. rewrite Hc. simpl. outcomes; split; reflexivity. Qed.

(** X15: the claim step returns only when every call has succeeded:
    the experiment returned is the selected one, the calls are connect,
    cursor, begin, select and close in this order, and no rollback is
    issued. *)
Theorem pull_open_experiment_return_inv tr e :
  run_pull_open_experiment self random_order = (tr, Ret e) ->
  exists c cur,
    connect self = Ret c /\ cursor self c = Ret cur /\ begin self c = Ret ()
    /\ _select_open_experiments_from_db self c cur random_order = Ret e
    /\ close_connection self c = Ret ()
    /\ tr = [Connect; Cursor c; Begin c; SelectOpenExperiments c cur random_order;
             CloseConnection c].
Proof.
  revert tr e. open_step. outcomes; intros tr e' H; try discriminate H.
  injection H as <- <-. repeat match goal with u : unit |- _ => destruct u end.
  eauto 10.
Qed.

(** X16: an exception of [close_connection] is what the caller gets,
    whatever happened before: it replaces the selected experiment as well
    as a pending exception. *)
Theorem pull_open_experiment_close_fails c e :
  connect self = Ret c -> close_connection self c = Raise e ->
  (run_pull_open_experiment self random_order).2 = Raise e.
Proof.
  intros Hc Hcl. open_step. rewrite Hc. simpl.
  outcomes; rewrite ?Hcl in *; simpl; congruence.
Qed.

(** X17: once connected, a failure of the cursor, the begin or the
    select with an Exception, followed by a rollback and a close that
    succeed, reaches the caller unchanged; the last two calls are the
    rollback and the close of the connection. *)
Theorem pull_open_experiment_rolls_back c err :
  connect self = Ret c ->
  transacted_work_fails self random_order c err ->
  is_Exception err = true ->
  rollback self c = Ret () -> close_connection self c = Ret () ->
  (run_pull_open_experiment self random_order).2 = Raise err
  /\ exists calls,
       (run_pull_open_experiment self random_order).1
       = calls ++ [Rollback c; CloseConnection c]
       /\ filter (fun x => is_rollback x = true) calls = [].
Proof.
  intros Hc Hfail He Hr Hcl.
  destruct Hfail as [H | (cur & Hcur & [H | [Hb H]])]; open_step;
    rewrite Hc; simpl; rewrite ?Hcur; simpl; rewrite ?Hb; simpl;
    rewrite H, He; simpl; rewrite Hr; simpl; rewrite Hcl; simpl;
    (split; [reflexivity|]).
  - by exists [Connect; Cursor c].
  - by exists [Connect; Cursor c; Begin c].
  - by exists [Connect; Cursor c; Begin c; SelectOpenExperiments c cur random_order].
Qed.

(** X18: when the rollback itself fails, its exception reaches the
    caller in place of the one that caused it; the connection is closed
    all the same. *)
Theorem pull_open_experiment_rollback_fails c err e2 :
  connect self = Ret c ->
  transacted_work_fails self random_order c err ->
  is_Exception err = true ->
  rollback self c = Raise e2 -> close_connection self c = Ret () ->
  (run_pull_open_experiment self random_order).2 = Raise e2
  /\ last (run_pull_open_experiment self random_order).1 = Some (CloseConnection c).
Proof.
  intros Hc Hfail He Hr Hcl.
  destruct Hfail as [H | (cur & Hcur & [H | [Hb H]])]; open_step;
    rewrite Hc; simpl; rewrite ?Hcur; simpl; rewrite ?Hb; simpl;
    rewrite H, He; simpl; rewrite Hr; simpl; rewrite Hcl; simpl;
    by split.
Qed.

(** X19: an exception that is no Exception (a KeyboardInterrupt) raised
    by the cursor, the begin or the select is not rolled back: no rollback
    is issued, the connection is closed, and the exception propagates. *)
Theorem pull_open_experiment_no_rollback c err :
  connect self = Ret c ->
  transacted_work_fails self random_order c err ->
  is_Exception err = false ->
  close_connection self c = Ret () ->
  (run_pull_open_experiment self random_order).2 = Raise err
  /\ filter (fun x => is_rollback x = true)
       (run_pull_open_experiment self random_order).1 = []
  /\ last (run_pull_open_experiment self random_order).1 = Some (CloseConnection c).
Proof.
  intros Hc Hfail He Hcl.
  destruct Hfail as [H | (cur & Hcur & [H | [Hb H]])]; open_step;
    rewrite Hc; simpl; rewrite ?Hcur; simpl; rewrite ?Hb; simpl;
    rewrite H, He; simpl; rewrite Hcl; simpl;
    by repeat split.
Qed.

End ClaimStepMore.

Lemma pull_open_experiment_closes_once_witness :
  last (MySQL.run_pull_open_experiment failing_select false).1
  = Some (MySQL.CloseConnection 7).
Proof.
  exact (proj1 (pull_open_experiment_closes_once failing_select false 7 eq_refl)).
Defined.

Lemma pull_open_experiment_return_inv_witness :
  exists c cur,
    MySQL.connect working_backend = Ret c
    /\ MySQL.cursor working_backend c = Ret cur
    /\ MySQL.close_connection working_backend c = Ret ().
Proof.
  destruct (pull_open_experiment_return_inv working_backend true
              [MySQL.Connect; MySQL.Cursor 7; MySQL.Begin 7;
               MySQL.SelectOpenExperiments 7 0 true; MySQL.CloseConnection 7]
              (1%Z, [], []) eq_refl) as (c & cur & Hc & Hcur & _ & _ & Hcl & _).
  exists c, cur. split; [exact Hc|]. split; [exact Hcur | exact Hcl].
Defined.

Lemma pull_open_experiment_close_fails_witness :
  (MySQL.run_pull_open_experiment failing_close false).2
  = Raise (DatabaseConnectionError "close failed").
Proof.
  apply (pull_open_experiment_close_fails failing_close false 7); reflexivity.
Defined.

Lemma pull_open_experiment_rolls_back_witness :
  (MySQL.run_pull_open_experiment failing_select true).2
  = Raise (PyException "OperationalError" "lock wait timeout").
Proof.
  apply (pull_open_experiment_rolls_back failing_select true 7); try reflexivity.
  right. exists 0. split; [reflexivity|]. right. split; reflexivity.
Defined.

Lemma pull_open_experiment_rollback_fails_witness :
  (MySQL.run_pull_open_experiment failing_rollback true).2
  = Raise (PyException "InterfaceError" "connection lost").
Proof.
  apply (pull_open_experiment_rollback_fails failing_rollback true 7
           (PyException "OperationalError" "lock wait timeout")); try reflexivity.
  right. exists 0. split; [reflexivity|]. right. split; reflexivity.
Defined.

Lemma pull_open_experiment_no_rollback_witness :
  (MySQL.run_pull_open_experiment interrupted_select true).2 = Raise KeyboardInterrupt.
Proof.
  apply (pull_open_experiment_no_rollback interrupted_select true 7); try reflexivity.
  right. exists 0. split; [reflexivity|]. right. split; reflexivity.
Defined.


(** ** Database and table queries *)

Section ServerQueries.
Import Server.

Ltac open_query :=
  unfold run, _create_database_if_not_existing, _get_existing_rows, try_except,
    then_, invoke, lift, ret, raise; simpl.

(** X20: when every call succeeds, [_create_database_if_not_existing]
    issues CREATE DATABASE, followed by a commit, exactly when the name is
    not among the databases the server lists; a listed database is left
    alone.  Either way the connection is closed at the end. *)
Theorem create_database_only_if_missing (str : exn -> string)
    (self : backend string) (database_name : string) c cur rows databases :
  connect self = Ret c -> cursor self c = Ret cur ->
  execute self cur "SHOW DATABASES" = Ret () ->
  fetchall self cur = Ret rows ->
  for_each first_column rows = Ret databases ->
  execute self cur ("CREATE DATABASE " +:+ database_name) = Ret () ->
  commit self c = Ret () -> close_connection self c = Ret () ->
  run (_create_database_if_not_existing str self database_name)
  = ([Connect; Cursor c; Execute cur "SHOW DATABASES"; Fetchall cur]
       ++ (if decide (database_name ∈ databases) then []
           else [Execute cur ("CREATE DATABASE " +:+ database_name); Commit c])
       ++ [CloseConnection c],
     Ret ()).
Proof.
  intros Hc Hcur Hshow Hf Hdb Hcreate Hcommit Hclose. open_query.
  rewrite Hc. simpl. rewrite Hcur. simpl. rewrite Hshow. simpl.
  rewrite Hf. simpl. rewrite Hdb. simpl.
  destruct (decide (database_name ∈ databases)) as [Hin|Hnin].
  - rewrite bool_decide_eq_false_2 by (intros H; by apply H). simpl.
    by rewrite Hclose.
  - rewrite bool_decide_eq_true_2 by done. simpl.
    rewrite Hcreate. simpl. rewrite Hcommit. simpl. by rewrite Hclose.
Qed.

(** X21: whatever the calls answer, the only Exception that
    [_create_database_if_not_existing] lets through is a
    DatabaseCreationError; and when it raises although the close itself
    works, the connection it had opened is never closed. *)
Theorem create_database_failure (str : exn -> string) (self : backend string)
    (database_name : string) (e : exn) :
  (run (_create_database_if_not_existing str self database_name)).2 = Raise e ->
  (is_Exception e = true ->
   exists msg, e = PyException "DatabaseCreationError" msg)
  /\ (forall c, connect self = Ret c -> close_connection self c = Ret () ->
      filter (fun x => is_server_close x = true)
        (run (_create_database_if_not_existing str self database_name)).1 = []).
Proof.
  open_query.
  destruct (connect self) as [c|e0] eqn:Hc; simpl.
  2: { destruct (is_Exception e0) eqn:He0; simpl; intros [= <-];
       (split; [intros; eauto; congruence | intros ? [=]]). }
  destruct (cursor self c) as [cur|e1]; simpl.
  2: { destruct (is_Exception e1) eqn:He1; simpl; intros [= <-];
       (split; [intros; eauto; congruence | by intros ? _ _]). }
  destruct (execute self cur "SHOW DATABASES") as [[]|e2]; simpl.
  2: { destruct (is_Exception e2) eqn:He2; simpl; intros [= <-];
       (split; [intros; eauto; congruence | by intros ? _ _]). }
  destruct (fetchall self cur) as [rows|e3]; simpl.
  2: { destruct (is_Exception e3) eqn:He3; simpl; intros [= <-];
       (split; [intros; eauto; congruence | by intros ? _ _]). }
  destruct (for_each first_column rows) as [databases|e4]; simpl.
  2: { destruct (is_Exception e4) eqn:He4; simpl; intros [= <-];
       (split; [intros; eauto; congruence | by intros ? _ _]). }
  destruct (bool_decide (database_name ∉ databases)); simpl.
  - destruct (execute self cur _) as [[]|e5]; simpl.
    2: { destruct (is_Exception e5) eqn:He5; simpl; intros [= <-];
         (split; [intros; eauto; congruence | by intros ? _ _]). }
    destruct (commit self c) as [[]|e6]; simpl.
    2: { destruct (is_Exception e6) eqn:He6; simpl; intros [= <-];
         (split; [intros; eauto; congruence | by intros ? _ _]). }
    destruct (close_connection self c) as [[]|e7] eqn:Hcl; simpl; [done|].
    destruct (is_Exception e7) eqn:He7; simpl; intros [= <-];
      (split; [intros; eauto; congruence | intros ? [= <-]; congruence]).
  - destruct (close_connection self c) as [[]|e7] eqn:Hcl; simpl; [done|].
    destruct (is_Exception e7) eqn:He7; simpl; intros [= <-];
      (split; [intros; eauto; congruence | intros ? [= <-]; congruence]).
Qed.

(** X22: when every call succeeds, [_get_existing_rows] runs one SELECT
    of the given columns, closes the connection and returns one dict per
    fetched row, in order; with distinct column names, a row as long as
    the column list gives each column the value at its position. *)
Theorem get_existing_rows_returns {V : Type} (self : backend V)
    (table_name : string) (column_names : list string) c cur rows :
  let sql := "SELECT " +:+ PyStr.join "," column_names +:+ " FROM " +:+ table_name in
  connect self = Ret c -> cursor self c = Ret cur ->
  execute self cur sql = Ret () -> fetchall self cur = Ret rows ->
  close_connection self c = Ret () ->
  NoDup column_names ->
  exists dicts,
    run (_get_existing_rows self table_name column_names)
    = ([Connect; Cursor c; Execute cur sql; Fetchall cur; CloseConnection c],
       Ret dicts)
    /\ length dicts = length rows
    /\ forall j row,
         rows !! j = Some row -> length row = length column_names ->
         exists d,
           dicts !! j = Some d
           /\ dom d = list_to_set column_names
           /\ forall i k v,
                column_names !! i = Some k -> row !! i = Some v -> d !! k = Some v.
Proof.
  intros sql Hc Hcur Hex Hf Hcl Hnd.
  exists (map (dict_zip column_names) rows). split; [|split].
  - open_query. rewrite Hc. simpl. rewrite Hcur. simpl.
    fold sql. rewrite Hex. simpl. rewrite Hf. simpl. by rewrite Hcl.
  - by rewrite length_map.
  - intros j row Hj Hlen. exists (dict_zip column_names row).
    split; [by rewrite list_lookup_fmap, Hj|].
    split; [by apply dict_zip_dom|].
    intros i k v Hk Hv. by apply (dict_zip_lookup_position column_names row i).
Qed.

(** X23: when the statement or the fetch of [_get_existing_rows] fails,
    the exception reaches the caller as it is and the connection is not
    closed. *)
Theorem get_existing_rows_failure {V : Type} (self : backend V)
    (table_name : string) (column_names : list string) c cur e :
  let sql := "SELECT " +:+ PyStr.join "," column_names +:+ " FROM " +:+ table_name in
  connect self = Ret c -> cursor self c = Ret cur ->
  execute self cur sql = Raise e
  \/ (execute self cur sql = Ret () /\ fetchall self cur = Raise e) ->
  (run (_get_existing_rows self table_name column_names)).2 = Raise e
  /\ filter (fun x => is_server_close x = true)
       (run (_get_existing_rows self table_name column_names)).1 = [].
Proof.
  intros sql Hc Hcur Hfail. open_query. rewrite Hc. simpl. rewrite Hcur. simpl.
  fold sql. destruct Hfail as [Hex | [Hex Hf]]; rewrite Hex; simpl;
    [by split|]. rewrite Hf. simpl. by split.
Qed.

End ServerQueries.

Lemma create_database_only_if_missing_witness :
  Server.run (Server._create_database_if_not_existing (fun _ => "") two_databases
                "experiments")
  = ([Server.Connect; Server.Cursor 3; Server.Execute 0 "SHOW DATABASES";
      Server.Fetchall 0; Server.CloseConnection 3], Ret ()).
Proof.
  apply (create_database_only_if_missing (fun _ => "") two_databases "experiments"
           3 0 [["mysql"]; ["experiments"]] ["mysql"; "experiments"]);
    reflexivity.
Defined.

Lemma create_database_failure_witness :
  filter (fun x => is_server_close x = true)
    (Server.run (Server._create_database_if_not_existing (fun _ => "")
                   {| Server.connect := Ret 3;
                      Server.cursor := fun _ => Ret 0;
                      Server.execute := fun _ _ => Ret ();
                      Server.fetchall := fun _ => Ret [[]];
                      Server.commit := fun _ => Ret ();
                      Server.close_connection := fun _ => Ret () |}
                   "experiments")).1 = [].
Proof.
  refine (proj2 (create_database_failure (fun _ => "") _ "experiments"
                   (PyException "DatabaseCreationError" _) _) 3 _ _);
    reflexivity.
Defined.

Lemma get_existing_rows_returns_witness :
  exists dicts,
    Server.run (Server._get_existing_rows two_rows "example_table"
                  ["value"; "exponent"])
    = ([Server.Connect; Server.Cursor 3;
        Server.Execute 0 "SELECT value,exponent FROM example_table";
        Server.Fetchall 0; Server.CloseConnection 3], Ret dicts)
    /\ length dicts = 2.
Proof.
  destruct (get_existing_rows_returns two_rows "example_table" ["value"; "exponent"]
              3 0 [[1%Z; 1%Z]; [1%Z; 3%Z]]) as (dicts & Hrun & Hlen & _);
    try reflexivity.
  - apply (bool_decide_unpack _). vm_compute. exact I.
  - exists dicts. split; [exact Hrun | exact Hlen].
Defined.

Lemma get_existing_rows_failure_witness :
  (Server.run (Server._get_existing_rows failing_statement "example_table"
                 ["value"; "exponent"])).2
  = Raise (PyException "ProgrammingError" "no such table").
Proof.
  apply (get_existing_rows_failure failing_statement "example_table"
           ["value"; "exponent"] 3 0); try reflexivity.
  by left.
Defined.
